(** * Raydium CLMM liquidity bot: monitors, decision step, position lifecycle
      and control loop, embedded as state-passing functions.

    The TypeScript sources modelled here are
    - [src/bot/monitor.ts]            (PoolMonitor)
    - [src/bot/position-manager.ts]   (PositionManager)
    - [src/bot/index.ts]              (LiquidityBot)
    - [src/services/raydium.ts]       (RaydiumService)
    - [src/services/solana.ts]        (SolanaService)
    - [src/services/discord.ts]       (DiscordService)

    JavaScript numbers are IEEE-754 binary64 values, which is what Rocq's
    primitive [float] is; BigInt and BN values are [Z]; an [async] method
    that may throw is a function from the world to a result and a new world. *)

From Stdlib Require Import ZArith List String Bool Lia PrimFloat.
Import ListNotations.

Local Open Scope list_scope.
Local Open Scope string_scope.

(** ** Values thrown and returned *)

(** A thrown JavaScript [Error], kept as its [message]. *)
Definition Error := string.

Inductive Result (A : Type) : Type :=
| Ok (a : A)
| Thrown (e : Error).
Arguments Ok {A} a.
Arguments Thrown {A} e.

(** ** Data of the services *)

(** The fields of the SDK's [ClmmPoolInfo] that the bot reads. *)
Record PoolData := {
  mintA : string;
  mintB : string;
  mintADecimals : Z;
  mintBDecimals : Z;
  sqrtPriceX64 : Z
}.

Record Token := {
  tk_mint : string;
  tk_symbol : string;
  tk_decimals : Z
}.

(** A position as [Clmm.getPositionsByOwner] returns it. *)
Record OwnedPosition := {
  op_poolId : string;
  op_nftMint : string;
  op_tickLowerPrice : Z;
  op_tickUpperPrice : Z;
  op_liquidity : Z;
  op_mintA : string;
  op_mintB : string
}.

(** [PositionInfo] of raydium.ts ([liquidity] is the decimal rendering of a BN
    there; the number itself is kept here). *)
Record PositionInfo := {
  positionId : string;
  pi_tokenA : Token;
  pi_tokenB : Token;
  liquidity : Z;
  lowerPrice : float;
  upperPrice : float;
  currentPrice : float;
  inRange : bool
}.

(** [TokenBalance] of solana.ts; [amount] is a [bigint]. *)
Record TokenBalance := {
  tb_mint : string;
  amount : Z;
  decimals : Z;
  uiAmount : float
}.

(** What a transaction asks the chain to do: the input handed to
    [Clmm.makeOpenPositionInstructionV2] or [Clmm.makeClosePositionInstruction]. *)
Inductive Tx : Type :=
| OpenPositionTx (lower upper : float) (amountMaxA amountMaxB : Z)
| ClosePositionTx (position : string).

Inductive Level := LDebug | LInfo | LWarn | LError.

(** Observable effects, in the order they happen. [Notify] is a call of
    [discordService.sendNotification]; [Submit] is a call of
    [sendAndConfirmTransaction] with its outcome; [Log] is a logger call
    (its message only, the metadata object is left out). *)
Inductive Event : Type :=
| Log (lvl : Level) (msg : string)
| Notify (title message : string) (color : Z) (fields : list (string * string))
| Submit (tx : Tx) (res : Result string)
| CronSchedule (expr : string)
| CronStop
| Sleep (ms : Z).

(** [Config] of config/index.ts, as far as the bot reads it. [webhookReady]
    says whether the DiscordService constructor obtained a webhook client. *)
Record Config := {
  poolId : string;
  priceRangePercent : float;
  rebalanceThresholdPercent : float;
  minSolBalance : float;
  checkIntervalMinutes : Z;
  webhookReady : bool
}.

(** ** A JavaScript [Map] with string keys, in insertion order *)

Fixpoint map_get {V : Type} (k : string) (m : list (string * V)) : option V :=
  match m with
  | [] => None
  | (k', v) :: m' => if String.eqb k k' then Some v else map_get k m'
  end.

Fixpoint map_set {V : Type} (k : string) (v : V) (m : list (string * V))
  : list (string * V) :=
  match m with
  | [] => [(k, v)]
  | (k', v') :: m' =>
      if String.eqb k k' then (k, v) :: m' else (k', v') :: map_set k v m'
  end.

(** JavaScript truthiness of a string: the empty string is falsy. *)
Definition truthy (s : string) : bool := negb (String.eqb s EmptyString).

(** [!!signature] for a [string | null]. *)
Definition truthy_opt (s : option string) : bool :=
  match s with
  | Some x => truthy x
  | None => false
  end.

(** [s.slice(0, 8) + '...'] *)
Definition shorten (s : string) : string := String.substring 0 8 s ++ "...".

(** ** The collaborators: chain RPC, Raydium SDK, webhook, cron, runtime

    Every call that leaves the process is a function of an abstract chain
    state: it returns a value or throws, and moves the chain on. Nothing is
    assumed about these functions, so a statement proved for every [Gateway]
    holds under every pattern of successes and failures. *)
Record Gateway (Chain : Type) := {
  (** [ClmmPoolUtils.fetchPoolInfo]; [None] is a falsy answer *)
  sdk_fetchPoolInfo : Chain -> Result (option PoolData) * Chain;
  (** [Clmm.getPositionsByOwner] *)
  sdk_getPositionsByOwner : Chain -> Result (list OwnedPosition) * Chain;
  (** [Clmm.makeOpenPositionInstructionV2] *)
  sdk_makeOpenPositionInstructionV2 :
    float -> float -> Z -> Z -> Chain -> Result unit * Chain;
  (** [new PublicKey(positionId)] and [Clmm.makeClosePositionInstruction] *)
  sdk_makeClosePositionInstruction : string -> Chain -> Result unit * Chain;
  (** [connection.getLatestBlockhash] *)
  rpc_getLatestBlockhash : Chain -> Result string * Chain;
  (** [sendAndConfirmTransaction] *)
  rpc_sendAndConfirmTransaction : Tx -> Chain -> Result string * Chain;
  (** [connection.getBalance], in lamports *)
  rpc_getBalance : Chain -> Result float * Chain;
  (** [connection.getParsedTokenAccountsByOwner], one entry per account, with
      [BigInt] and [parseFloat] already applied *)
  rpc_getParsedTokenAccountsByOwner : Chain -> Result (list TokenBalance) * Chain;
  (** [WebhookClient.send] *)
  webhook_send : string -> Chain -> Result unit * Chain;
  (** [cron.schedule] *)
  cron_schedule : string -> Chain -> Result unit * Chain;
  (** decimal.js: [new Decimal(s).pow(2).div(new Decimal(2).pow(128)).toNumber()] *)
  decimal_sqrtPrice : Z -> float;
  (** [DecimalUtils.fromBN(x, decimals).toNumber()] and its string rendering *)
  decimal_fromBN : Z -> Z -> float;
  decimal_fromBN_str : Z -> Z -> string;
  (** [Number.prototype.toFixed], number and integer interpolation *)
  js_toFixed : float -> Z -> string;
  js_numStr : float -> string;
  js_intStr : Z -> string
}.
Arguments sdk_fetchPoolInfo {Chain}.
Arguments sdk_getPositionsByOwner {Chain}.
Arguments sdk_makeOpenPositionInstructionV2 {Chain}.
Arguments sdk_makeClosePositionInstruction {Chain}.
Arguments rpc_getLatestBlockhash {Chain}.
Arguments rpc_sendAndConfirmTransaction {Chain}.
Arguments rpc_getBalance {Chain}.
Arguments rpc_getParsedTokenAccountsByOwner {Chain}.
Arguments webhook_send {Chain}.
Arguments cron_schedule {Chain}.
Arguments decimal_sqrtPrice {Chain}.
Arguments decimal_fromBN {Chain}.
Arguments decimal_fromBN_str {Chain}.
Arguments js_toFixed {Chain}.
Arguments js_numStr {Chain}.
Arguments js_intStr {Chain}.

(** ** The process state

    The singletons of the process, side by side: [raydiumService]
    ([poolInfo], [tokenA], [tokenB]), [poolMonitor] ([lastCheckedPrice]),
    [liquidityBot] ([isRunning], [cronJob]); then the chain and the effects
    observed so far. *)
Record World (Chain : Type) := mkWorld {
  poolInfo : option PoolData;
  tokenA : option Token;
  tokenB : option Token;
  lastCheckedPrice : option float;
  isRunning : bool;
  cronJob : option string;
  chain : Chain;
  trace : list Event
}.
Arguments mkWorld {Chain}.
Arguments poolInfo {Chain}.
Arguments tokenA {Chain}.
Arguments tokenB {Chain}.
Arguments lastCheckedPrice {Chain}.
Arguments isRunning {Chain}.
Arguments cronJob {Chain}.
Arguments chain {Chain}.
Arguments trace {Chain}.

Section Monad.
Context {Chain : Type}.

Definition M (A : Type) : Type := World Chain -> Result A * World Chain.

Definition ret {A} (a : A) : M A := fun w => (Ok a, w).

Definition throw {A} (e : Error) : M A := fun w => (Thrown e, w).

Definition bind {A B} (m : M A) (k : A -> M B) : M B :=
  fun w =>
    match m w with
    | (Ok a, w') => k a w'
    | (Thrown e, w') => (Thrown e, w')
    end.

(** [try { m } catch (error) { h error }] *)
Definition tryCatch {A} (m : M A) (h : Error -> M A) : M A :=
  fun w =>
    match m w with
    | (Ok a, w') => (Ok a, w')
    | (Thrown e, w') => h e w'
    end.

Definition gets {A} (f : World Chain -> A) : M A := fun w => (Ok (f w), w).

Definition modify (f : World Chain -> World Chain) : M unit :=
  fun w => (Ok tt, f w).

Definition with_chain (c : Chain) (w : World Chain) : World Chain :=
  mkWorld (poolInfo w) (tokenA w) (tokenB w) (lastCheckedPrice w)
          (isRunning w) (cronJob w) c (trace w).

Definition with_event (e : Event) (w : World Chain) : World Chain :=
  mkWorld (poolInfo w) (tokenA w) (tokenB w) (lastCheckedPrice w)
          (isRunning w) (cronJob w) (chain w) (trace w ++ [e])%list.

Definition with_pool (p : PoolData) (a b : Token) (w : World Chain)
  : World Chain :=
  mkWorld (Some p) (Some a) (Some b) (lastCheckedPrice w)
          (isRunning w) (cronJob w) (chain w) (trace w).

Definition with_lastCheckedPrice (p : float) (w : World Chain) : World Chain :=
  mkWorld (poolInfo w) (tokenA w) (tokenB w) (Some p)
          (isRunning w) (cronJob w) (chain w) (trace w).

Definition with_isRunning (b : bool) (w : World Chain) : World Chain :=
  mkWorld (poolInfo w) (tokenA w) (tokenB w) (lastCheckedPrice w)
          b (cronJob w) (chain w) (trace w).

Definition with_cronJob (j : option string) (w : World Chain) : World Chain :=
  mkWorld (poolInfo w) (tokenA w) (tokenB w) (lastCheckedPrice w)
          (isRunning w) j (chain w) (trace w).

(** A call to a collaborator. *)
Definition call {A} (f : Chain -> Result A * Chain) : M A :=
  fun w => let (r, c) := f (chain w) in (r, with_chain c w).

Definition emit (e : Event) : M unit := modify (with_event e).

Definition log (lvl : Level) (msg : string) : M unit := emit (Log lvl msg).
End Monad.

Arguments M : clear implicits.

Declare Scope bot_scope.
Delimit Scope bot_scope with bot.
Notation "x <- m ;; k" := (bind m (fun x => k))
  (at level 100, m at next level, right associativity) : bot_scope.
Notation "m ;; k" := (bind m (fun _ => k))
  (at level 100, right associativity) : bot_scope.
Local Open Scope bot_scope.

(** Result of [PoolMonitor.checkPrice]. *)
Record PriceInfo := {
  pr_currentPrice : float;
  significantChange : bool;
  percentChange : option float
}.

(** Result of [PoolMonitor.checkPositions]. *)
Record PositionStatus := {
  positionsCount : nat;
  outOfRangeCount : nat
}.

(** The [action] argument of [sendPositionUpdate]. *)
Inductive Action := Created | Withdrawn | Rebalanced.

Definition action_name (a : Action) : string :=
  match a with
  | Created => "Created"
  | Withdrawn => "Withdrawn"
  | Rebalanced => "Rebalanced"
  end.

Definition action_lower (a : Action) : string :=
  match a with
  | Created => "created"
  | Withdrawn => "withdrawn"
  | Rebalanced => "rebalanced"
  end.

Definition action_color (a : Action) : Z :=
  match a with
  | Created => 0x00ff00
  | Withdrawn => 0xffaa00
  | Rebalanced => 0x0099ff
  end%Z.

Section Services.
Context {Chain : Type} (gw : Gateway Chain) (cfg : Config).

Local Abbreviation M := (M Chain).

(** *** services/discord.ts *)

(** [DiscordService.sendNotification]. The [Notify] event records the call;
    the webhook itself may be missing or fail, which is only logged. *)
Definition sendNotification (title message : string) (color : Z)
           (fields : list (string * string)) : M unit :=
  emit (Notify title message color fields) ;;
  if negb (webhookReady cfg) then
    log LDebug "Discord notification not sent: webhook not configured"
  else
    tryCatch
      (call (webhook_send gw title) ;;
       log LDebug "Discord notification sent")
      (fun _ => log LError "Failed to send Discord notification").

(** [DiscordService.sendPositionUpdate] *)
Definition sendPositionUpdate (action : Action)
           (details : list (string * string)) : M unit :=
  sendNotification ("Position " ++ action_name action)
                   ("Liquidity position has been " ++ action_lower action ++ ".")
                   (action_color action) details.

(** [DiscordService.sendErrorNotification] *)
Definition sendErrorNotification (error : Error)
           (context : list (string * string)) : M unit :=
  sendNotification "Bot Error" ("An error occurred: " ++ error)
                   0xff0000%Z context.

(** *** services/solana.ts *)

(** [SolanaService.getSolBalance] *)
Definition getSolBalance : M float :=
  tryCatch
    (balance <- call (rpc_getBalance gw) ;;
     ret (balance / 1e9)%float)
    (fun error => log LError "Failed to get SOL balance" ;; throw error).

(** [SolanaService.getTokenBalances]: a later account of a mint replaces an
    earlier one, as [Map.set] does. *)
Definition getTokenBalances : M (list (string * TokenBalance)) :=
  tryCatch
    (tokenAccounts <- call (rpc_getParsedTokenAccountsByOwner gw) ;;
     ret (fold_left (fun balances account =>
                       map_set (tb_mint account) account balances)
                    tokenAccounts []))
    (fun error => log LError "Failed to get token balances" ;; throw error).

(** The call of [sendAndConfirmTransaction], recorded with its outcome. *)
Definition submit (tx : Tx) : M string :=
  fun w =>
    let (r, c) := rpc_sendAndConfirmTransaction gw tx (chain w) in
    (r, with_event (Submit tx r) (with_chain c w)).

(** [SolanaService.signAndSendTransaction] *)
Definition signAndSendTransaction (transaction : Tx) : M string :=
  tryCatch
    (call (rpc_getLatestBlockhash gw) ;;
     signature <- submit transaction ;;
     log LInfo "Transaction sent" ;;
     ret signature)
    (fun error => log LError "Failed to send transaction" ;; throw error).

(** *** services/raydium.ts *)

(** [RaydiumService.getCurrentPrice] *)
Definition getCurrentPrice : M float :=
  info <- gets poolInfo ;;
  match info with
  | None => throw "Pool info not initialized"
  | Some p =>
      let price := decimal_sqrtPrice gw (sqrtPriceX64 p) in
      a <- gets tokenA ;;
      b <- gets tokenB ;;
      if (match a with Some t => String.eqb (tk_symbol t) "USDC" | None => false end)
         && (match b with Some t => String.eqb (tk_symbol t) "SOL" | None => false end)
      then ret (1 / price)%float
      else ret price
  end.

(** [RaydiumService.fetchPoolInfo]: the three assignments to [poolInfo],
    [tokenA] and [tokenB] are made together. *)
Definition fetchPoolInfo : M PoolData :=
  tryCatch
    (poolData <- call (sdk_fetchPoolInfo gw) ;;
     match poolData with
     | None => throw ("Pool not found: " ++ poolId cfg)
     | Some pd =>
         modify (with_pool pd
                   {| tk_mint := mintA pd; tk_symbol := "SOL";
                      tk_decimals := mintADecimals pd |}
                   {| tk_mint := mintB pd; tk_symbol := "USDC";
                      tk_decimals := mintBDecimals pd |}) ;;
         getCurrentPrice ;;
         log LInfo "Pool info fetched" ;;
         ret pd
     end)
    (fun error => log LError "Failed to fetch pool info" ;; throw error).

(** [RaydiumService.initialize] *)
Definition raydium_initialize : M unit :=
  tryCatch
    (fetchPoolInfo ;;
     log LInfo "Raydium service fully initialized")
    (fun error =>
       log LError "Failed to initialize Raydium service" ;; throw error).

(** [RaydiumService.isPoolInitialized] *)
Definition isPoolInitialized : M bool :=
  info <- gets poolInfo ;;
  ret (match info with Some _ => true | None => false end).

(** [if (!await raydiumService.isPoolInitialized()) await raydiumService.initialize()],
    the first statement of [checkPrice] and of [createOptimalPosition]. *)
Definition ensureInitialized : M unit :=
  initialized <- isPoolInitialized ;;
  if negb initialized then raydium_initialize else ret tt.

(** [RaydiumService.calculatePriceRange] *)
Definition calculatePriceRange (currentPrice : float) : float * float :=
  let priceRangePercent := (priceRangePercent cfg / 100)%float in
  let lowerPrice := (currentPrice * (1 - priceRangePercent))%float in
  let upperPrice := (currentPrice * (1 + priceRangePercent))%float in
  (lowerPrice, upperPrice).

(** [this.tokenA!] and [this.tokenB!]: reading a field of [null] throws. *)
Definition nonNull {A} (x : option A) : M A :=
  match x with
  | Some a => ret a
  | None => throw "TypeError: Cannot read properties of null"
  end.

(** [RaydiumService.createPosition] *)
Definition createPosition (amountA amountB : Z) : M string :=
  tryCatch
    (info <- gets poolInfo ;;
     a <- gets tokenA ;;
     b <- gets tokenB ;;
     (match info, a, b with
      | Some _, Some _, Some _ => ret tt
      | _, _, _ => fetchPoolInfo ;; ret tt
      end) ;;
     currentPrice <- getCurrentPrice ;;
     let (lowerPrice, upperPrice) := calculatePriceRange currentPrice in
     call (sdk_makeOpenPositionInstructionV2 gw lowerPrice upperPrice
                                             amountA amountB) ;;
     signature <- signAndSendTransaction
                    (OpenPositionTx lowerPrice upperPrice amountA amountB) ;;
     ta <- bind (gets tokenA) nonNull ;;
     tb <- bind (gets tokenB) nonNull ;;
     sendPositionUpdate Created
       [("PositionID", shorten signature);
        ("CurrentPrice", js_toFixed gw currentPrice 6);
        ("PriceRange", js_toFixed gw lowerPrice 6 ++ " - "
                         ++ js_toFixed gw upperPrice 6);
        ("TokenA", decimal_fromBN_str gw amountA (tk_decimals ta) ++ " "
                     ++ tk_symbol ta);
        ("TokenB", decimal_fromBN_str gw amountB (tk_decimals tb) ++ " "
                     ++ tk_symbol tb)] ;;
     log LInfo "Position created" ;;
     ret signature)
    (fun error =>
       log LError "Failed to create position" ;;
       sendErrorNotification error [("action", "Creating position")] ;;
       throw error).

(** [RaydiumService.withdrawPosition] *)
Definition withdrawPosition (positionId : string) : M string :=
  tryCatch
    (info <- gets poolInfo ;;
     (match info with
      | Some _ => ret tt
      | None => fetchPoolInfo ;; ret tt
      end) ;;
     call (sdk_makeClosePositionInstruction gw positionId) ;;
     signature <- signAndSendTransaction (ClosePositionTx positionId) ;;
     sendPositionUpdate Withdrawn
       [("PositionID", shorten positionId);
        ("TxSignature", shorten signature)] ;;
     log LInfo "Position withdrawn" ;;
     ret signature)
    (fun error =>
       log LError "Failed to withdraw position" ;;
       sendErrorNotification error
         [("action", "Withdrawing position"); ("positionId", positionId)] ;;
       throw error).

(** The callback of [poolPositions.map] in [getPositions]. *)
Definition formatPosition (ta tb : Token) (currentPrice : float)
           (position : OwnedPosition) : PositionInfo :=
  let lowerPrice :=
    decimal_fromBN gw (op_tickLowerPrice position) (tk_decimals tb) in
  let upperPrice :=
    decimal_fromBN gw (op_tickUpperPrice position) (tk_decimals tb) in
  let inRange :=
    ((lowerPrice <=? currentPrice) && (currentPrice <=? upperPrice))%float in
  {| positionId := op_nftMint position;
     pi_tokenA := {| tk_mint := op_mintA position;
                     tk_symbol := tk_symbol ta;
                     tk_decimals := tk_decimals ta |};
     pi_tokenB := {| tk_mint := op_mintB position;
                     tk_symbol := tk_symbol tb;
                     tk_decimals := tk_decimals tb |};
     liquidity := op_liquidity position;
     lowerPrice := lowerPrice;
     upperPrice := upperPrice;
     currentPrice := currentPrice;
     inRange := inRange |}.

(** [RaydiumService.getPositions] *)
Definition getPositions : M (list PositionInfo) :=
  tryCatch
    (info <- gets poolInfo ;;
     (match info with
      | Some _ => ret tt
      | None => fetchPoolInfo ;; ret tt
      end) ;;
     positions <- call (sdk_getPositionsByOwner gw) ;;
     let poolPositions :=
       filter (fun p => String.eqb (op_poolId p) (poolId cfg)) positions in
     currentPrice <- getCurrentPrice ;;
     match poolPositions with
     | [] => ret []
     | _ :: _ =>
         tb <- bind (gets tokenB) nonNull ;;
         ta <- bind (gets tokenA) nonNull ;;
         ret (map (formatPosition ta tb currentPrice) poolPositions)
     end)
    (fun error => log LError "Failed to get positions" ;; throw error).

(** [raydiumService.getTokenAMint] and [getTokenBMint] are called by
    monitor.ts, and [RaydiumService] defines no method of either name: the
    callee of the call expression is [undefined], so evaluating the call
    throws a TypeError before any comparison is made. *)
Definition getTokenAMint : M string :=
  throw "raydiumService.getTokenAMint is not a function".

Definition getTokenBMint : M string :=
  throw "raydiumService.getTokenBMint is not a function".

(** *** bot/monitor.ts: PoolMonitor *)

(** Set once, in the constructor. *)
Definition priceChangeThreshold : float :=
  (rebalanceThresholdPercent cfg / 100)%float.

(** [PoolMonitor.checkPrice] *)
Definition checkPrice : M PriceInfo :=
  tryCatch
    (ensureInitialized ;;
     currentPrice <- getCurrentPrice ;;
     last <- gets lastCheckedPrice ;;
     change <-
       match last with
       | Some lastPrice =>
           let percentChange :=
             (abs (currentPrice - lastPrice) / lastPrice)%float in
           let significantChange :=
             (priceChangeThreshold <? percentChange)%float in
           (if significantChange
            then log LInfo "Significant price change detected"
            else ret tt) ;;
           ret (significantChange, Some percentChange)
       | None => ret (false, None)
       end ;;
     modify (with_lastCheckedPrice currentPrice) ;;
     ret {| pr_currentPrice := currentPrice;
            significantChange := fst change;
            percentChange := snd change |})
    (fun error => log LError "Failed to check price" ;; throw error).

(** [PoolMonitor.checkPositions] *)
Definition checkPositions : M PositionStatus :=
  tryCatch
    (positions <- getPositions ;;
     let outOfRangePositions :=
       filter (fun position => negb (inRange position)) positions in
     log LInfo "Position status" ;;
     ret {| positionsCount := List.length positions;
            outOfRangeCount := List.length outOfRangePositions |})
    (fun error => log LError "Failed to check positions" ;; throw error).

(** The [for ... of tokenBalances.entries()] loop of [checkWalletBalances]:
    the second mint is asked for only when the first comparison fails. *)
Fixpoint formatBalances (entries : list (string * TokenBalance))
         (formatted : list (string * float)) : M (list (string * float)) :=
  match entries with
  | [] => ret formatted
  | (mint, balance) :: rest =>
      mintOfA <- getTokenAMint ;;
      symbol <-
        (if String.eqb mint mintOfA then ret "SOL"
         else
           mintOfB <- getTokenBMint ;;
           ret (if String.eqb mint mintOfB then "USDC" else "Unknown")) ;;
      formatBalances rest (formatted ++ [(symbol, uiAmount balance)])%list
  end.

(** [PoolMonitor.checkWalletBalances] *)
Definition checkWalletBalances : M (float * list (string * float)) :=
  tryCatch
    (solBalance <- getSolBalance ;;
     tokenBalances <- getTokenBalances ;;
     formattedBalances <- formatBalances tokenBalances [] ;;
     log LInfo "Wallet balances" ;;
     (if (solBalance <? minSolBalance cfg)%float then
        log LWarn "SOL balance below minimum threshold" ;;
        sendNotification "Low SOL Balance"
          ("Wallet SOL balance (" ++ js_toFixed gw solBalance 4
             ++ " SOL) is below minimum threshold ("
             ++ js_numStr gw (minSolBalance cfg) ++ " SOL).")
          0xffaa00%Z []
      else ret tt) ;;
     ret (solBalance, formattedBalances))
    (fun error =>
       log LError "Failed to check wallet balances" ;; throw error).

(** *** bot/position-manager.ts: PositionManager *)

(** [new BN(1000)]; [bigint < BN] compares the BN through its decimal
    rendering, hence as integers. *)
Definition minAmount : Z := 1000.

(** [PositionManager.createOptimalPosition] *)
Definition createOptimalPosition : M (option string) :=
  tryCatch
    (ensureInitialized ;;
     tokenBalances <- getTokenBalances ;;
     positions <- getPositions ;;
     if (0 <? List.length positions)%nat then
       log LInfo "Active positions exist, skipping position creation" ;;
       ret None
     else
       poolInfo <- fetchPoolInfo ;;
       let mintA := mintA poolInfo in
       let mintB := mintB poolInfo in
       match map_get mintA tokenBalances, map_get mintB tokenBalances with
       | Some tokenABalance, Some tokenBBalance =>
           if (amount tokenABalance <? minAmount)%Z
              || (amount tokenBBalance <? minAmount)%Z
           then
             log LWarn "Insufficient token balances for creating position" ;;
             ret None
           else
             let amountA := Z.quot (amount tokenABalance * 95) 100 in
             let amountB := Z.quot (amount tokenBBalance * 95) 100 in
             log LInfo "Creating position" ;;
             signature <- createPosition amountA amountB ;;
             ret (Some signature)
       | _, _ =>
           log LWarn "Missing token balances needed for position" ;;
           ret None
       end)
    (fun error =>
       log LError "Failed to create position" ;;
       sendErrorNotification error
         [("action", "Creating optimal position")] ;;
       ret None).

(** The [for ... of] loop of [withdrawOutOfRangePositions]. *)
Fixpoint withdrawEach (outOfRangePositions : list PositionInfo)
         (signatures : list string) : M (list string) :=
  match outOfRangePositions with
  | [] => ret signatures
  | position :: rest =>
      log LInfo "Withdrawing out-of-range position" ;;
      signature <- withdrawPosition (positionId position) ;;
      withdrawEach rest (signatures ++ [signature])%list
  end.

(** [PositionManager.withdrawOutOfRangePositions] *)
Definition withdrawOutOfRangePositions : M (list string) :=
  tryCatch
    (positions <- getPositions ;;
     let signatures : list string := [] in
     let outOfRangePositions :=
       filter (fun position => negb (inRange position)) positions in
     if (List.length outOfRangePositions =? 0)%nat then
       log LInfo "No out-of-range positions to withdraw" ;;
       ret signatures
     else
       withdrawEach outOfRangePositions signatures)
    (fun error =>
       log LError "Failed to withdraw out-of-range positions" ;;
       sendErrorNotification error
         [("action", "Withdrawing out-of-range positions")] ;;
       ret []).

(** [PositionManager.rebalanceIfNeeded]; [goOn] is [None] when control falls
    through to the final [return false]. *)
Definition rebalanceIfNeeded : M bool :=
  tryCatch
    (positions <- getPositions ;;
     if (List.length positions =? 0)%nat then
       signature <- createOptimalPosition ;;
       ret (truthy_opt signature)
     else
       let outOfRangePositions :=
         filter (fun position => negb (inRange position)) positions in
       goOn <-
         (if (0 <? List.length outOfRangePositions)%nat then
            withdrawSignatures <- withdrawOutOfRangePositions ;;
            if (0 <? List.length withdrawSignatures)%nat then
              emit (Sleep 5000) ;;
              createSignature <- createOptimalPosition ;;
              ret (Some (truthy_opt createSignature))
            else ret None
          else ret None) ;;
       match goOn with
       | Some created => ret created
       | None => ret false
       end)
    (fun error =>
       log LError "Failed to rebalance positions" ;;
       sendErrorNotification error [("action", "Rebalancing positions")] ;;
       ret false).

(** *** bot/index.ts: LiquidityBot *)

(** [LiquidityBot.initialize] *)
Definition bot_initialize : M unit :=
  tryCatch
    (log LInfo "Initializing bot..." ;;
     raydium_initialize ;;
     sendNotification "Bot Started"
       "Raydium CLMM Liquidity Bot has been started." 0x0099ff%Z
       [("Pool ID", poolId cfg);
        ("Price Range", js_numStr gw (priceRangePercent cfg) ++ "%");
        ("Check Interval",
         js_intStr gw (checkIntervalMinutes cfg) ++ " minutes")] ;;
     log LInfo "Bot initialized successfully")
    (fun error =>
       log LError "Failed to initialize bot" ;;
       sendErrorNotification error [("action", "Initializing bot")] ;;
       throw error).

(** Step 4 of [runIteration]: the three tests on the monitors' results. *)
Definition decideRebalance (priceInfo : PriceInfo)
           (positionInfo : PositionStatus) : M bool :=
  let shouldRebalance := false in
  shouldRebalance <-
    (if significantChange priceInfo then
       log LInfo "Rebalancing due to significant price change" ;; ret true
     else ret shouldRebalance) ;;
  shouldRebalance <-
    (if (0 <? outOfRangeCount positionInfo)%nat then
       log LInfo "Rebalancing due to out-of-range positions" ;; ret true
     else ret shouldRebalance) ;;
  shouldRebalance <-
    (if (positionsCount positionInfo =? 0)%nat then
       log LInfo "Creating initial position" ;; ret true
     else ret shouldRebalance) ;;
  ret shouldRebalance.

(** The [try] statement of [runIteration]: everything after its first log
    line. *)
Definition iterationSteps : M unit :=
  tryCatch
    (priceInfo <- checkPrice ;;
     positionInfo <- checkPositions ;;
     checkWalletBalances ;;
     shouldRebalance <- decideRebalance priceInfo positionInfo ;;
     (if shouldRebalance then
        rebalanced <- rebalanceIfNeeded ;;
        if rebalanced then log LInfo "Rebalancing completed successfully"
        else log LInfo "No rebalancing performed"
      else log LInfo "No rebalancing needed") ;;
     log LInfo "Bot iteration completed successfully")
    (fun error =>
       log LError "Error in bot iteration" ;;
       sendErrorNotification error [("action", "Bot iteration")]).

(** [LiquidityBot.runIteration] *)
Definition runIteration : M unit :=
  log LInfo "Running bot iteration" ;;
  iterationSteps.

(** The function handed to [cron.schedule]. *)
Definition cronCallback : M unit :=
  tryCatch runIteration
           (fun _ => log LError "Error during bot iteration").

(** [LiquidityBot.start] *)
Definition start : M unit :=
  running <- gets isRunning ;;
  if running then log LWarn "Bot is already running"
  else
    tryCatch
      (bot_initialize ;;
       let cronSchedule :=
         "*/" ++ js_intStr gw (checkIntervalMinutes cfg) ++ " * * * *" in
       call (cron_schedule gw cronSchedule) ;;
       emit (CronSchedule cronSchedule) ;;
       modify (with_cronJob (Some cronSchedule)) ;;
       modify (with_isRunning true) ;;
       log LInfo "Bot started" ;;
       runIteration)
      (fun error =>
         log LError "Failed to start bot" ;;
         sendErrorNotification error [("action", "Starting bot")]).

(** [LiquidityBot.stop] *)
Definition stop : M unit :=
  running <- gets isRunning ;;
  job <- gets cronJob ;;
  if negb running || match job with Some _ => false | None => true end then
    log LWarn "Bot is not running"
  else
    emit CronStop ;;
    modify (with_cronJob None) ;;
    modify (with_isRunning false) ;;
    log LInfo "Bot stopped" ;;
    sendNotification "Bot Stopped"
      "Raydium CLMM Liquidity Bot has been stopped." 0xff0000%Z [].

(** [LiquidityBot.isActive] *)
Definition isActive : M bool := gets isRunning.
End Services.

(** ** Ticks and iterations in flight

    [runIteration] is [async]: after its first log line it is suspended at
    every [await], and the timer may fire meanwhile. The loop state keeps the
    bot's world and the iterations that have begun and not yet finished, each
    as the work it still has to do. The bot has two fields, [isRunning] and
    [cronJob]; the callback of [cron.schedule] reads neither and calls
    [runIteration] at once. *)
Record Loop (Chain : Type) := mkLoop {
  bot : World Chain;
  suspended : list (M Chain unit)
}.
Arguments mkLoop {Chain}.
Arguments bot {Chain}.
Arguments suspended {Chain}.

Inductive LoopEvent := Tick | Settle.

Section Ticks.
Context {Chain : Type} (gw : Gateway Chain) (cfg : Config).

(** The number of iterations executing. *)
Definition inFlight (l : Loop Chain) : nat := List.length (suspended l).

(** The timer fires: an armed timer runs [cronCallback], which writes the
    first log line of [runIteration] and is suspended with the rest. *)
Definition tick (l : Loop Chain) : Loop Chain :=
  match cronJob (bot l) with
  | Some _ =>
      mkLoop (with_event (Log LInfo "Running bot iteration") (bot l))
             (suspended l
              ++ [tryCatch (iterationSteps gw cfg)
                           (fun _ => log LError "Error during bot iteration")])%list
  | None => l
  end.

(** The oldest suspended iteration runs to its end. *)
Definition settle (l : Loop Chain) : Loop Chain :=
  match suspended l with
  | [] => l
  | rest_of_iteration :: others =>
      mkLoop (snd (rest_of_iteration (bot l))) others
  end.

Definition loopStep (l : Loop Chain) (e : LoopEvent) : Loop Chain :=
  match e with
  | Tick => tick l
  | Settle => settle l
  end.

Definition loopRun (l : Loop Chain) (es : list LoopEvent) : Loop Chain :=
  fold_left loopStep es l.
End Ticks.

(** ** The hosts of the bot: configuration check and HTTP handlers *)

(** [Config.validate] of config/index.ts, on the two values it reads,
    [Config.solana.privateKey] and [Config.raydium.poolId]. *)
Definition validate (privateKey poolId : string) : Result bool :=
  let required :=
    [("SOLANA_PRIVATE_KEY", privateKey); ("POOL_ID", poolId)] in
  let missing := filter (fun item => negb (truthy (snd item))) required in
  if (0 <? List.length missing)%nat then
    Thrown ("Missing required configuration: "
              ++ String.concat ", " (map fst missing))
  else Ok true.

(** What a handler answers: [res.status(code).json(body)]. The status body
    carries the three snapshots (its [timestamp] is left out). *)
Inductive Reply : Type :=
| ReplyMessage (code : Z) (message : string)
| ReplyError (code : Z) (error : string)
| ReplyStatus (code : Z) (running : bool)
              (priceInfo : option PriceInfo)
              (positionInfo : option PositionStatus)
              (balanceInfo : option (float * list (string * float))).

Section Hosts.
Context {Chain : Type} (gw : Gateway Chain) (cfg : Config).

Local Abbreviation M := (M Chain).

(** The first handler of pages/api/start-bot.ts, on [req.method]. *)
Definition startBotHandler (method : string) : M Reply :=
  if negb (String.eqb method "POST") then
    ret (ReplyError 405 "Method not allowed")
  else
    tryCatch
      (active <- isActive ;;
       if active then ret (ReplyMessage 200 "Bot is already running")
       else
         start gw cfg ;;
         log LInfo "Bot started via API" ;;
         ret (ReplyMessage 200 "Bot started successfully"))
      (fun _ =>
         log LError "Failed to start bot via API" ;;
         ret (ReplyError 500 "Failed to start bot")).

(** The second handler of pages/api/start-bot.ts (stopping the bot). *)
Definition stopBotHandler (method : string) : M Reply :=
  if negb (String.eqb method "POST") then
    ret (ReplyError 405 "Method not allowed")
  else
    tryCatch
      (active <- isActive ;;
       if negb active then ret (ReplyMessage 200 "Bot is not running")
       else
         stop gw cfg ;;
         log LInfo "Bot stopped via API" ;;
         ret (ReplyMessage 200 "Bot stopped successfully"))
      (fun _ =>
         log LError "Failed to stop bot via API" ;;
         ret (ReplyError 500 "Failed to stop bot")).

(** The status handler (the API file that imports [poolMonitor]). *)
Definition statusHandler (method : string) : M Reply :=
  if negb (String.eqb method "GET") then
    ret (ReplyError 405 "Method not allowed")
  else
    tryCatch
      (running <- isActive ;;
       if running then
         priceInfo <- checkPrice gw cfg ;;
         positionInfo <- checkPositions gw cfg ;;
         balanceInfo <- checkWalletBalances gw cfg ;;
         ret (ReplyStatus 200 running (Some priceInfo) (Some positionInfo)
                          (Some balanceInfo))
       else ret (ReplyStatus 200 running None None None))
      (fun _ =>
         log LError "Failed to get bot status via API" ;;
         ret (ReplyError 500 "Failed to get bot status")).
End Hosts.

(** ** A scripted gateway

    A chain whose answers are written down in advance, used to run the bot
    on concrete inputs. Each scripted call takes the next answer from its
    list and keeps the last one for good; the other calls succeed. *)
Module Scripted.

Record Script := {
  pools : list (Result (option PoolData));
  owned : list (Result (list OwnedPosition));
  accounts : list (Result (list TokenBalance));
  sends : list (Result string)
}.

Definition next {A} (l : list (Result A)) : Result A * list (Result A) :=
  match l with
  | [] => (Thrown "nothing scripted", [])
  | [x] => (x, [x])
  | x :: rest => (x, rest)
  end.

(** A confirmation carries a signature; a scripted empty one is a
    rejection. *)
Definition confirmed (r : Result string) : Result string :=
  match r with
  | Ok EmptyString => Thrown "no signature"
  | _ => r
  end.

(** The number itself, as a float: stands for the decimal.js conversions. *)
Definition toFloat (z : Z) : float :=
  Z.iter z (fun x => x + 1)%float 0%float.

Definition gateway : Gateway Script := {|
  sdk_fetchPoolInfo := fun s =>
    let (r, rest) := next (pools s) in
    (r, {| pools := rest; owned := owned s;
           accounts := accounts s; sends := sends s |});
  sdk_getPositionsByOwner := fun s =>
    let (r, rest) := next (owned s) in
    (r, {| pools := pools s; owned := rest;
           accounts := accounts s; sends := sends s |});
  sdk_makeOpenPositionInstructionV2 := fun _ _ _ _ s => (Ok tt, s);
  sdk_makeClosePositionInstruction := fun _ s => (Ok tt, s);
  rpc_getLatestBlockhash := fun s => (Ok "blockhash", s);
  rpc_sendAndConfirmTransaction := fun _ s =>
    let (r, rest) := next (sends s) in
    (confirmed r, {| pools := pools s; owned := owned s;
                     accounts := accounts s; sends := rest |});
  rpc_getBalance := fun s => (Ok 2e9%float, s);
  rpc_getParsedTokenAccountsByOwner := fun s =>
    let (r, rest) := next (accounts s) in
    (r, {| pools := pools s; owned := owned s;
           accounts := rest; sends := sends s |});
  webhook_send := fun _ s => (Ok tt, s);
  cron_schedule := fun _ s => (Ok tt, s);
  decimal_sqrtPrice := toFloat;
  decimal_fromBN := fun x _ => toFloat x;
  decimal_fromBN_str := fun _ _ => "n";
  js_toFixed := fun _ _ => "n";
  js_numStr := fun _ => "n";
  js_intStr := fun _ => "5"
|}.

Definition config : Config := {|
  poolId := "POOL";
  priceRangePercent := 5;
  rebalanceThresholdPercent := 1;
  minSolBalance := 0.5;
  checkIntervalMinutes := 5;
  webhookReady := true
|}.

Definition pool (price : Z) : PoolData := {|
  mintA := "MINT_A"; mintB := "MINT_B";
  mintADecimals := 9; mintBDecimals := 6;
  sqrtPriceX64 := price
|}.

Definition position (id : string) (lower upper : Z) : OwnedPosition := {|
  op_poolId := "POOL"; op_nftMint := id;
  op_tickLowerPrice := lower; op_tickUpperPrice := upper;
  op_liquidity := 1; op_mintA := "MINT_A"; op_mintB := "MINT_B"
|}.

Definition balance (mint : string) (raw : Z) : TokenBalance := {|
  tb_mint := mint; amount := raw; decimals := 6; uiAmount := 1
|}.

(** A freshly constructed process over a script. *)
Definition fresh (s : Script) : World Script :=
  mkWorld None None None None false None s [].

(** A process that has cached the pool at [price] and last checked the
    price [last]. *)
Definition watching (last : option float) (price : Z) (s : Script)
  : World Script :=
  mkWorld (Some (pool price))
          (Some {| tk_mint := "MINT_A"; tk_symbol := "SOL";
                   tk_decimals := 9 |})
          (Some {| tk_mint := "MINT_B"; tk_symbol := "USDC";
                   tk_decimals := 6 |})
          last false None s [].

(** A started bot: the flag set and the timer armed. *)
Definition started (s : Script) : World Script :=
  with_isRunning true (with_cronJob (Some "*/5 * * * *") (fresh s)).

(** Pool at price 100, two positions of the pool both below the price,
    the first withdrawal confirmed, the second one rejected. *)
Definition second_withdrawal_fails : Script := {|
  pools := [Ok (Some (pool 100))];
  owned := [Ok [position "P1" 10 20; position "P2" 30 40]];
  accounts := [Ok [balance "MINT_A" 5000; balance "MINT_B" 7000]];
  sends := [Ok "SIG1"; Thrown "Transaction was not confirmed"]
|}.

(** The pool cannot be read. *)
Definition pool_unreachable : Script := {|
  pools := [Thrown "fetch failed"];
  owned := [Ok []];
  accounts := [Ok []];
  sends := []
|}.

(** No position yet, balances of 5000 and 7000 raw units, every
    transaction confirmed. *)
Definition empty_wallet_funded : Script := {|
  pools := [Ok (Some (pool 100))];
  owned := [Ok []];
  accounts := [Ok [balance "MINT_A" 5000; balance "MINT_B" 7000]];
  sends := [Ok "SIG_OPEN"]
|}.

(** One position of the pool, in range. *)
Definition one_position_in_range : Script := {|
  pools := [Ok (Some (pool 100))];
  owned := [Ok [position "P1" 90 110]];
  accounts := [Ok [balance "MINT_A" 5000; balance "MINT_B" 7000]];
  sends := [Ok "SIG_OPEN"]
|}.

(** No position, and 999 raw units of token B. *)
Definition token_b_below_floor : Script := {|
  pools := [Ok (Some (pool 100))];
  owned := [Ok []];
  accounts := [Ok [balance "MINT_A" 5000; balance "MINT_B" 999]];
  sends := [Ok "SIG_OPEN"]
|}.

(** One position out of range; its withdrawal is confirmed and the
    opening of the new position is rejected. *)
Definition withdraw_then_create_fails : Script := {|
  pools := [Ok (Some (pool 100))];
  owned := [Ok [position "P1" 10 20]; Ok [position "P1" 10 20]; Ok []];
  accounts := [Ok [balance "MINT_A" 5000; balance "MINT_B" 7000]];
  sends := [Ok "SIG_CLOSE"; Thrown "Transaction was not confirmed"]
|}.

(** A started bot with no iteration in flight. *)
Definition idle : Loop Script :=
  mkLoop (started empty_wallet_funded) [].

End Scripted.

(** * Reasoning about runs *)

(** ** Outcomes of a computation *)
Section Outcomes.
Context {Chain : Type}.

Local Abbreviation M := (M Chain).
Local Abbreviation World := (World Chain).

(** [wp m Q w]: running [m] from [w] ends in a result and a world
    related by [Q]. *)
Definition wp {A} (m : M A) (Q : Result A -> World -> Prop) (w : World)
  : Prop :=
  Q (fst (m w)) (snd (m w)).

Lemma wp_run {A} (m : M A) Q w r w' :
  m w = (r, w') -> Q r w' -> wp m Q w.
Proof. unfold wp. intros ->. auto. Qed.

Lemma wp_inv {A} (m : M A) Q w r w' :
  wp m Q w -> m w = (r, w') -> Q r w'.
Proof. unfold wp. intros H E. rewrite E in H. exact H. Qed.

Lemma wp_conseq {A} (m : M A) (Q Q' : Result A -> World -> Prop) w :
  wp m Q w -> (forall r w', Q r w' -> Q' r w') -> wp m Q' w.
Proof. unfold wp. auto. Qed.

Lemma wp_ret {A} (a : A) Q w : Q (Ok a) w -> wp (ret a) Q w.
Proof. auto. Qed.

Lemma wp_throw {A} e (Q : Result A -> World -> Prop) w :
  Q (Thrown e) w -> wp (throw e) Q w.
Proof. auto. Qed.

Lemma wp_gets {A} (f : World -> A) Q w : Q (Ok (f w)) w -> wp (gets f) Q w.
Proof. auto. Qed.

Lemma wp_modify f Q w : Q (Ok tt) (f w) -> wp (modify f) Q w.
Proof. auto. Qed.

Lemma wp_emit e Q w : Q (Ok tt) (with_event e w) -> wp (emit e) Q w.
Proof. auto. Qed.

Lemma wp_log l s Q w : Q (Ok tt) (with_event (Log l s) w) -> wp (log l s) Q w.
Proof. auto. Qed.

Lemma wp_call {A} (f : Chain -> Result A * Chain) Q w :
  (forall r c, f (chain w) = (r, c) -> Q r (with_chain c w)) ->
  wp (call f) Q w.
Proof.
  unfold wp, call. intros H.
  destruct (f (chain w)) as [r c] eqn:E. simpl. apply H. reflexivity.
Qed.

Lemma wp_bind {A B} (m : M A) (k : A -> M B) Q w :
  wp m (fun r w' => match r with
                    | Ok a => wp (k a) Q w'
                    | Thrown e => Q (Thrown e) w'
                    end) w ->
  wp (bind m k) Q w.
Proof.
  unfold wp, bind. destruct (m w) as [[a | e] w']; simpl; auto.
Qed.

Lemma wp_tryCatch {A} (m : M A) (h : Error -> M A) Q w :
  wp m (fun r w' => match r with
                    | Ok a => Q (Ok a) w'
                    | Thrown e => wp (h e) Q w'
                    end) w ->
  wp (tryCatch m h) Q w.
Proof.
  unfold wp, tryCatch. destruct (m w) as [[a | e] w']; simpl; auto.
Qed.

(** ** What a run may change

    [extends P w w']: [w'] has the bot's [isRunning] and [cronJob] of [w],
    and its trace is that of [w] followed by events that satisfy [P]. *)
Definition extends (P : Event -> Prop) (w w' : World) : Prop :=
  isRunning w' = isRunning w /\
  cronJob w' = cronJob w /\
  exists d, trace w' = (trace w ++ d)%list /\ Forall P d.

(** [effects P m]: whatever the outcome, [m] only does that. *)
Definition effects {A} (P : Event -> Prop) (m : M A) : Prop :=
  forall w, extends P w (snd (m w)).

(** [safe P m]: moreover [m] never throws. *)
Definition safe {A} (P : Event -> Prop) (m : M A) : Prop :=
  forall w, (exists a, fst (m w) = Ok a) /\ extends P w (snd (m w)).

Lemma extends_refl P w : extends P w w.
Proof.
  repeat split. exists []. split; [now rewrite app_nil_r | constructor].
Qed.

Lemma extends_trans P w1 w2 w3 :
  extends P w1 w2 -> extends P w2 w3 -> extends P w1 w3.
Proof.
  intros (R1 & C1 & d1 & T1 & F1) (R2 & C2 & d2 & T2 & F2).
  repeat split; try congruence.
  exists (d1 ++ d2)%list. split.
  - rewrite T2, T1, app_assoc. reflexivity.
  - apply Forall_app. auto.
Qed.

Lemma extends_mono (P P' : Event -> Prop) w w' :
  (forall e, P e -> P' e) -> extends P w w' -> extends P' w w'.
Proof.
  intros HP (R & C & d & T & F). repeat split; auto.
  exists d. split; auto. eapply Forall_impl; eauto.
Qed.

Lemma extends_event (P : Event -> Prop) e w :
  P e -> extends P w (with_event e w).
Proof.
  intros He. repeat split. exists [e]. split; auto.
Qed.

Lemma extends_chain P c w : extends P w (with_chain c w).
Proof. repeat split. exists []. simpl. now rewrite app_nil_r. Qed.

Lemma safe_effects {A} P (m : M A) : safe P m -> effects P m.
Proof. intros H w. apply H. Qed.

Lemma effects_mono {A} (P P' : Event -> Prop) (m : M A) :
  (forall e, P e -> P' e) -> effects P m -> effects P' m.
Proof. intros HP H w. eapply extends_mono; eauto. Qed.

Lemma wp_effects {A} P (m : M A) (Q : Result A -> World -> Prop) w :
  effects P m -> (forall r w', extends P w w' -> Q r w') -> wp m Q w.
Proof. unfold wp. auto. Qed.

Lemma wp_safe {A} P (m : M A) (Q : Result A -> World -> Prop) w :
  safe P m -> (forall a w', extends P w w' -> Q (Ok a) w') -> wp m Q w.
Proof.
  unfold wp. intros H HQ. destruct (H w) as [[a Ha] He].
  rewrite Ha. auto.
Qed.

Section Rules.
Variable P : Event -> Prop.

Lemma effects_ret {A} (a : A) : effects P (ret a).
Proof. intro w. apply extends_refl. Qed.

Lemma effects_throw {A} e : effects P (@throw Chain A e).
Proof. intro w. apply extends_refl. Qed.

Lemma effects_gets {A} (f : World -> A) : effects P (gets f).
Proof. intro w. apply extends_refl. Qed.

Lemma effects_call {A} (f : Chain -> Result A * Chain) : effects P (call f).
Proof.
  intro w. unfold call. destruct (f (chain w)). apply extends_chain.
Qed.

Lemma effects_emit e : P e -> effects P (emit e).
Proof. intros H w. apply extends_event, H. Qed.

Lemma effects_log l s : P (Log l s) -> effects P (log l s).
Proof. apply effects_emit. Qed.

Lemma effects_bind {A B} (m : M A) (k : A -> M B) :
  effects P m -> (forall a, effects P (k a)) -> effects P (bind m k).
Proof.
  intros Hm Hk w. unfold bind. specialize (Hm w).
  destruct (m w) as [[a | e] w1]; simpl in *; auto.
  eapply extends_trans; [exact Hm | apply Hk].
Qed.

Lemma effects_tryCatch {A} (m : M A) (h : Error -> M A) :
  effects P m -> (forall e, effects P (h e)) -> effects P (tryCatch m h).
Proof.
  intros Hm Hh w. unfold tryCatch. specialize (Hm w).
  destruct (m w) as [[a | e] w1]; simpl in *; auto.
  eapply extends_trans; [exact Hm | apply Hh].
Qed.

Lemma safe_ret {A} (a : A) : safe P (ret a).
Proof. intro w. split; [now exists a | apply extends_refl]. Qed.

Lemma safe_gets {A} (f : World -> A) : safe P (gets f).
Proof. intro w. split; [now eexists | apply extends_refl]. Qed.

Lemma safe_emit e : P e -> safe P (emit e).
Proof. intros H w. split; [now exists tt | apply extends_event, H]. Qed.

Lemma safe_log l s : P (Log l s) -> safe P (log l s).
Proof. apply safe_emit. Qed.

Lemma safe_bind {A B} (m : M A) (k : A -> M B) :
  safe P m -> (forall a, safe P (k a)) -> safe P (bind m k).
Proof.
  intros Hm Hk w. unfold bind. destruct (Hm w) as [[a Ha] He].
  destruct (m w) as [[a' | e] w1]; simpl in *; try discriminate.
  destruct (Hk a' w1) as [Hr He']. split; auto.
  eapply extends_trans; eauto.
Qed.

Lemma safe_tryCatch {A} (m : M A) (h : Error -> M A) :
  effects P m -> (forall e, safe P (h e)) -> safe P (tryCatch m h).
Proof.
  intros Hm Hh w. unfold tryCatch. specialize (Hm w).
  destruct (m w) as [[a | e] w1]; simpl in *.
  - split; [now exists a | auto].
  - destruct (Hh e w1) as [Hr He]. split; auto.
    eapply extends_trans; eauto.
Qed.
End Rules.
End Outcomes.

Ltac eff_step :=
  match goal with
  | |- effects _ (bind _ _) => apply effects_bind; [| intro]
  | |- effects _ (tryCatch _ _) => apply effects_tryCatch; [| intro]
  | |- effects _ (ret _) => apply effects_ret
  | |- effects _ (throw _) => apply effects_throw
  | |- effects _ (gets _) => apply effects_gets
  | |- effects _ (call _) => apply effects_call
  | |- effects _ (log _ _) => apply effects_log
  | |- effects _ (emit _) => apply effects_emit
  | |- effects _ (if ?b then _ else _) => destruct b
  | |- effects _ (match ?x with _ => _ end) => destruct x
  | |- safe _ (bind _ _) => apply safe_bind; [| intro]
  | |- safe _ (tryCatch _ _) => apply safe_tryCatch; [| intro]
  | |- safe _ (ret _) => apply safe_ret
  | |- safe _ (gets _) => apply safe_gets
  | |- safe _ (log _ _) => apply safe_log
  | |- safe _ (emit _) => apply safe_emit
  | |- safe _ (if ?b then _ else _) => destruct b
  | |- safe _ (match ?x with _ => _ end) => destruct x
  end.

Create HintDb bot.

Ltac eff := repeat eff_step; eauto with bot.

(** ** What each operation may change *)
Section ServiceEffects.
Context {Chain : Type} (gw : Gateway Chain) (cfg : Config).
Variable P : Event -> Prop.

Hypothesis P_log : forall l s, P (Log l s).
Hypothesis P_notify :
  forall t m c f, String.eqb t "Bot Started" = false -> P (Notify t m c f).
Hypothesis P_close : forall id r, P (Submit (ClosePositionTx id) r).
Hypothesis P_open :
  forall lo up a b r, P (Submit (OpenPositionTx lo up a b) r).
Hypothesis P_sleep : forall ms, P (Sleep ms).

Local Hint Resolve P_log P_close P_open P_sleep : bot.

Lemma effects_with_pool pd a b :
  effects P (modify (Chain := Chain) (with_pool pd a b)).
Proof. intro w. repeat split. exists []. simpl. now rewrite app_nil_r. Qed.

Lemma effects_with_lastCheckedPrice p :
  effects P (modify (Chain := Chain) (with_lastCheckedPrice p)).
Proof. intro w. repeat split. exists []. simpl. now rewrite app_nil_r. Qed.

Local Hint Resolve effects_with_pool effects_with_lastCheckedPrice : bot.

Lemma safe_sendNotification t m c f :
  P (Notify t m c f) -> safe P (sendNotification gw cfg t m c f).
Proof. intro H. unfold sendNotification. eff. Qed.

Lemma safe_sendErrorNotification e ctx :
  safe P (sendErrorNotification gw cfg e ctx).
Proof.
  apply safe_sendNotification, P_notify. reflexivity.
Qed.

Lemma safe_sendPositionUpdate a details :
  safe P (sendPositionUpdate gw cfg a details).
Proof.
  apply safe_sendNotification, P_notify. destruct a; reflexivity.
Qed.

Local Hint Resolve safe_sendErrorNotification safe_sendPositionUpdate : bot.
Local Hint Resolve safe_effects : bot.

Lemma effects_getCurrentPrice : effects P (getCurrentPrice gw).
Proof. unfold getCurrentPrice. eff. Qed.
Local Hint Resolve effects_getCurrentPrice : bot.

Lemma effects_fetchPoolInfo : effects P (fetchPoolInfo gw cfg).
Proof. unfold fetchPoolInfo. eff. Qed.
Local Hint Resolve effects_fetchPoolInfo : bot.

Lemma effects_raydium_initialize : effects P (raydium_initialize gw cfg).
Proof. unfold raydium_initialize. eff. Qed.
Local Hint Resolve effects_raydium_initialize : bot.

Lemma effects_ensureInitialized : effects P (ensureInitialized gw cfg).
Proof. unfold ensureInitialized, isPoolInitialized. eff. Qed.
Local Hint Resolve effects_ensureInitialized : bot.

Lemma effects_nonNull {A} (x : option A) : effects P (nonNull (Chain := Chain) x).
Proof. unfold nonNull. eff. Qed.
Local Hint Resolve effects_nonNull : bot.

Lemma effects_getPositions : effects P (getPositions gw cfg).
Proof. unfold getPositions. eff. Qed.
Local Hint Resolve effects_getPositions : bot.

Lemma effects_getTokenBalances : effects P (getTokenBalances gw).
Proof. unfold getTokenBalances. eff. Qed.
Local Hint Resolve effects_getTokenBalances : bot.

Lemma effects_getSolBalance : effects P (getSolBalance gw).
Proof. unfold getSolBalance. eff. Qed.
Local Hint Resolve effects_getSolBalance : bot.

Lemma effects_submit tx :
  (forall r, P (Submit tx r)) -> effects P (submit gw tx).
Proof.
  intros H w. unfold submit.
  destruct (rpc_sendAndConfirmTransaction gw tx (chain w)) as [r c].
  simpl. eapply extends_trans; [apply extends_chain | apply extends_event, H].
Qed.

Lemma effects_signAndSendTransaction tx :
  (forall r, P (Submit tx r)) -> effects P (signAndSendTransaction gw tx).
Proof.
  intro H. unfold signAndSendTransaction.
  pose proof (effects_submit tx H). eff.
Qed.

Lemma effects_withdrawPosition id : effects P (withdrawPosition gw cfg id).
Proof.
  unfold withdrawPosition.
  pose proof (effects_signAndSendTransaction (ClosePositionTx id)
                (P_close id)).
  eff.
Qed.
Local Hint Resolve effects_withdrawPosition : bot.

Lemma effects_createPosition a b : effects P (createPosition gw cfg a b).
Proof.
  unfold createPosition.
  pose proof (fun lo up =>
                effects_signAndSendTransaction (OpenPositionTx lo up a b)
                  (P_open lo up a b)).
  eff.
Qed.
Local Hint Resolve effects_createPosition : bot.

Lemma safe_createOptimalPosition : safe P (createOptimalPosition gw cfg).
Proof. unfold createOptimalPosition. eff. Qed.
Local Hint Resolve safe_createOptimalPosition : bot.

Lemma effects_withdrawEach ps sigs : effects P (withdrawEach gw cfg ps sigs).
Proof.
  revert sigs. induction ps as [| p ps IH]; intro sigs; simpl; eff.
Qed.
Local Hint Resolve effects_withdrawEach : bot.

Lemma safe_withdrawOutOfRangePositions :
  safe P (withdrawOutOfRangePositions gw cfg).
Proof. unfold withdrawOutOfRangePositions. eff. Qed.
Local Hint Resolve safe_withdrawOutOfRangePositions : bot.

Lemma safe_rebalanceIfNeeded : safe P (rebalanceIfNeeded gw cfg).
Proof. unfold rebalanceIfNeeded. eff. Qed.
Local Hint Resolve safe_rebalanceIfNeeded : bot.

Lemma effects_checkPrice : effects P (checkPrice gw cfg).
Proof. unfold checkPrice. eff. Qed.
Local Hint Resolve effects_checkPrice : bot.

Lemma effects_checkPositions : effects P (checkPositions gw cfg).
Proof. unfold checkPositions. eff. Qed.
Local Hint Resolve effects_checkPositions : bot.

Lemma effects_formatBalances entries acc :
  effects P (formatBalances (Chain := Chain) entries acc).
Proof.
  revert acc. induction entries as [| [mint bal] rest IH]; intro acc; simpl.
  - eff.
  - unfold getTokenAMint, getTokenBMint. eff.
Qed.
Local Hint Resolve effects_formatBalances : bot.

Lemma effects_checkWalletBalances : effects P (checkWalletBalances gw cfg).
Proof.
  unfold checkWalletBalances. eff.
  apply safe_effects, safe_sendNotification, P_notify. reflexivity.
Qed.
Local Hint Resolve effects_checkWalletBalances : bot.

Lemma effects_decideRebalance pi ps :
  effects P (decideRebalance (Chain := Chain) pi ps).
Proof. unfold decideRebalance. eff. Qed.
Local Hint Resolve effects_decideRebalance : bot.

Lemma safe_runIteration : safe P (runIteration gw cfg).
Proof. unfold runIteration, iterationSteps. eff. Qed.
End ServiceEffects.

Arguments wp : simpl never.
Arguments bind : simpl never.
Arguments tryCatch : simpl never.

Section MoreOutcomes.
Context {Chain : Type}.

(** Running [m] and naming its outcome. *)
Lemma wp_eqn {A} (m : M Chain A) Q w :
  (forall r w1, m w = (r, w1) -> Q r w1) -> wp m Q w.
Proof.
  intro H. unfold wp. apply H. destruct (m w); reflexivity.
Qed.

Lemma run_bind_ok {A B} (m : M Chain A) (k : A -> M Chain B) w a w1 :
  m w = (Ok a, w1) -> bind m k w = k a w1.
Proof. unfold bind. intros ->. reflexivity. Qed.

Lemma run_bind_thrown {A B} (m : M Chain A) (k : A -> M Chain B) w e w1 :
  m w = (Thrown e, w1) -> bind m k w = (Thrown e, w1).
Proof. unfold bind. intros ->. reflexivity. Qed.

Lemma run_tryCatch_ok {A} (m : M Chain A) h w a w1 :
  m w = (Ok a, w1) -> tryCatch m h w = (Ok a, w1).
Proof. unfold tryCatch. intros ->. reflexivity. Qed.

Lemma run_tryCatch_thrown {A} (m : M Chain A) h w e w1 :
  m w = (Thrown e, w1) -> tryCatch m h w = h e w1.
Proof. unfold tryCatch. intros ->. reflexivity. Qed.
End MoreOutcomes.

Ltac wp_step :=
  lazymatch goal with
  | |- wp (bind _ _) _ _ => apply wp_bind
  | |- wp (tryCatch _ _) _ _ => apply wp_tryCatch
  | |- wp (ret _) _ _ => apply wp_ret
  | |- wp (throw _) _ _ => apply wp_throw
  | |- wp (gets _) _ _ => apply wp_gets
  | |- wp (modify _) _ _ => apply wp_modify
  | |- wp (log _ _) _ _ => apply wp_log
  | |- wp (emit _) _ _ => apply wp_emit
  end; cbv beta iota.

Ltac wp_steps := repeat wp_step.

(** ** Reading the trace *)

Definition is_log (e : Event) : Prop :=
  match e with
  | Log _ _ => True
  | _ => False
  end.

(** The transactions handed to [sendAndConfirmTransaction], with their
    outcomes, oldest first. *)
Definition submitted (t : list Event) : list (Tx * Result string) :=
  flat_map (fun e => match e with
                     | Submit tx r => [(tx, r)]
                     | _ => []
                     end) t.

(** Signatures of the confirmed open-position transactions. *)
Definition opened (t : list Event) : list string :=
  flat_map (fun s => match s with
                     | (OpenPositionTx _ _ _ _, Ok sig) => [sig]
                     | _ => []
                     end) (submitted t).

(** Signatures of the confirmed close-position transactions. *)
Definition closed (t : list Event) : list string :=
  flat_map (fun s => match s with
                     | (ClosePositionTx _, Ok sig) => [sig]
                     | _ => []
                     end) (submitted t).

Definition count (f : Event -> bool) (t : list Event) : nat :=
  List.length (filter f t).

Definition is_bot_started (e : Event) : bool :=
  match e with
  | Notify t _ _ _ => String.eqb t "Bot Started"
  | _ => false
  end.

Definition is_notification (e : Event) : bool :=
  match e with
  | Notify _ _ _ _ => true
  | _ => false
  end.

Definition is_timer_armed (e : Event) : bool :=
  match e with
  | CronSchedule _ => true
  | _ => false
  end.

(** Events other than transactions. *)
Definition no_submit (e : Event) : Prop :=
  match e with
  | Submit _ _ => False
  | _ => True
  end.

(** Events other than open-position transactions. *)
Definition no_open (e : Event) : Prop :=
  match e with
  | Submit (OpenPositionTx _ _ _ _) _ => False
  | _ => True
  end.

(** Events other than a "Bot Started" notification or an armed timer. *)
Definition no_timer (e : Event) : Prop :=
  match e with
  | CronSchedule _ => False
  | _ => True
  end.

Definition no_start (e : Event) : Prop :=
  match e with
  | Notify t _ _ _ => String.eqb t "Bot Started" = false
  | CronSchedule _ => False
  | _ => True
  end.

Lemma submitted_app t d : submitted (t ++ d) = (submitted t ++ submitted d)%list.
Proof. apply flat_map_app. Qed.

Lemma opened_app t d : opened (t ++ d) = (opened t ++ opened d)%list.
Proof. unfold opened. rewrite submitted_app. apply flat_map_app. Qed.

Lemma closed_app t d : closed (t ++ d) = (closed t ++ closed d)%list.
Proof. unfold closed. rewrite submitted_app. apply flat_map_app. Qed.

Lemma count_app f t d : count f (t ++ d) = count f t + count f d.
Proof. unfold count. rewrite filter_app, length_app. reflexivity. Qed.

Lemma submitted_no_submit d : Forall no_submit d -> submitted d = [].
Proof.
  induction 1 as [| e d He _ IH]; [reflexivity |].
  destruct e; simpl in *; try contradiction; exact IH.
Qed.

Lemma opened_no_open d : Forall no_open d -> opened d = [].
Proof.
  induction 1 as [| e d He _ IH]; [reflexivity |].
  change (e :: d) with ([e] ++ d)%list. rewrite opened_app, IH, app_nil_r.
  destruct e as [| | tx r | | |]; try reflexivity.
  destruct tx; [contradiction | reflexivity].
Qed.

Lemma count_no_start d :
  Forall no_start d ->
  count is_bot_started d = 0 /\ count is_timer_armed d = 0.
Proof.
  induction 1 as [| e d He _ [IH1 IH2]]; [split; reflexivity |].
  change (e :: d) with ([e] ++ d)%list. rewrite !count_app, IH1, IH2.
  destruct e; simpl in *; try contradiction; try (split; reflexivity).
  unfold count. simpl. rewrite He. split; reflexivity.
Qed.

Section TraceFrames.
Context {Chain : Type}.
Implicit Types w : World Chain.

Lemma extends_submitted w w' :
  extends no_submit w w' -> submitted (trace w') = submitted (trace w).
Proof.
  intros (_ & _ & d & -> & F).
  rewrite submitted_app, (submitted_no_submit d F), app_nil_r. reflexivity.
Qed.

Lemma extends_opened w w' :
  extends no_open w w' -> opened (trace w') = opened (trace w).
Proof.
  intros (_ & _ & d & -> & F).
  rewrite opened_app, (opened_no_open d F), app_nil_r. reflexivity.
Qed.

Lemma extends_count_start w w' :
  extends no_start w w' ->
  count is_bot_started (trace w') = count is_bot_started (trace w) /\
  count is_timer_armed (trace w') = count is_timer_armed (trace w).
Proof.
  intros (_ & _ & d & -> & F). rewrite !count_app.
  destruct (count_no_start d F) as [-> ->]. lia.
Qed.
End TraceFrames.

(** ** The pool cache of the Raydium service *)
Section PoolCache.
Context {Chain : Type} (gw : Gateway Chain) (cfg : Config).
Implicit Types w : World Chain.

(** The cache holds [pd] and the two token records made from it. *)
Definition pool_loaded (pd : PoolData) w : Prop :=
  poolInfo w = Some pd /\
  tokenA w = Some {| tk_mint := mintA pd; tk_symbol := "SOL";
                     tk_decimals := mintADecimals pd |} /\
  tokenB w = Some {| tk_mint := mintB pd; tk_symbol := "USDC";
                     tk_decimals := mintBDecimals pd |}.

Definition same_pool w w' : Prop :=
  poolInfo w' = poolInfo w /\ tokenA w' = tokenA w /\ tokenB w' = tokenB w.

Lemma getCurrentPrice_pure w :
  getCurrentPrice gw w = (fst (getCurrentPrice gw w), w).
Proof.
  unfold getCurrentPrice, bind, gets, ret, throw.
  destruct (poolInfo w); [| reflexivity]. simpl.
  destruct (_ && _); reflexivity.
Qed.

Lemma getCurrentPrice_congr w w' :
  same_pool w w' ->
  fst (getCurrentPrice gw w') = fst (getCurrentPrice gw w).
Proof.
  intros (Hp & Ha & Hb).
  unfold getCurrentPrice, bind, gets, ret, throw.
  rewrite Hp. destruct (poolInfo w); [| reflexivity]. simpl.
  rewrite Ha, Hb. destruct (_ && _); reflexivity.
Qed.

Lemma getCurrentPrice_loaded pd w :
  pool_loaded pd w ->
  getCurrentPrice gw w = (Ok (decimal_sqrtPrice gw (sqrtPriceX64 pd)), w).
Proof.
  intros (Hp & Ha & Hb).
  unfold getCurrentPrice, bind, gets, ret, throw.
  rewrite Hp. simpl. rewrite Ha, Hb. reflexivity.
Qed.

Lemma getCurrentPrice_some w :
  poolInfo w <> None -> exists p, getCurrentPrice gw w = (Ok p, w).
Proof.
  intro H. unfold getCurrentPrice, bind, gets, ret, throw.
  destruct (poolInfo w); [| contradiction]. simpl.
  destruct (_ && _); eauto.
Qed.

Lemma fetchPoolInfo_spec w :
  wp (fetchPoolInfo gw cfg)
     (fun r w' =>
        lastCheckedPrice w' = lastCheckedPrice w /\
        match r with
        | Ok pd => pool_loaded pd w'
        | Thrown _ => same_pool w w'
        end) w.
Proof.
  unfold fetchPoolInfo. wp_steps.
  apply wp_call. intros [[pd |] | e] c _; cbv beta iota.
  - wp_steps. unfold getCurrentPrice. wp_steps. simpl. wp_steps.
    repeat split; reflexivity.
  - wp_steps. repeat split; reflexivity.
  - wp_steps. repeat split; reflexivity.
Qed.

Lemma raydium_initialize_spec w :
  wp (raydium_initialize gw cfg)
     (fun r w' =>
        lastCheckedPrice w' = lastCheckedPrice w /\
        match r with
        | Ok _ => exists pd, pool_loaded pd w'
        | Thrown _ => same_pool w w'
        end) w.
Proof.
  unfold raydium_initialize. wp_steps.
  eapply wp_conseq; [apply fetchPoolInfo_spec |].
  intros [pd | e] w1 [HL HP]; cbv beta iota; wp_steps.
  - split; [exact HL |]. exists pd. exact HP.
  - split; [exact HL | exact HP].
Qed.
End PoolCache.

(** * The price monitor *)
Section PriceMonitor.
Context {Chain : Type} (gw : Gateway Chain) (cfg : Config).
Implicit Types w : World Chain.

Lemma ensureInitialized_spec w :
  wp (ensureInitialized gw cfg)
     (fun r w1 =>
        lastCheckedPrice w1 = lastCheckedPrice w /\
        match r with
        | Ok _ => poolInfo w1 <> None
        | Thrown e =>
            poolInfo w = None /\ raydium_initialize gw cfg w = (Thrown e, w1)
        end) w.
Proof.
  unfold ensureInitialized, isPoolInitialized. wp_steps.
  destruct (poolInfo w) as [pd |] eqn:Hp; simpl.
  - wp_steps. split; [reflexivity | congruence].
  - apply wp_eqn. intros r w1 E.
    pose proof (wp_inv _ _ _ _ _ (raydium_initialize_spec gw cfg w) E)
      as [HL HR].
    split; [exact HL |]. destruct r as [[] | e].
    + destruct HR as (pd & Hpd & _). congruence.
    + split; [reflexivity | exact E].
Qed.

(** Every way [checkPrice] can end. *)
Lemma checkPrice_outcome w :
  wp (checkPrice gw cfg)
     (fun res w' =>
        match res with
        | Ok r =>
            let p := pr_currentPrice r in
            getCurrentPrice gw w' = (Ok p, w') /\
            lastCheckedPrice w' = Some p /\
            match lastCheckedPrice w with
            | None => percentChange r = None /\ significantChange r = false
            | Some prev =>
                percentChange r = Some (abs (p - prev) / prev)%float /\
                significantChange r =
                  (rebalanceThresholdPercent cfg / 100
                   <? abs (p - prev) / prev)%float
            end
        | Thrown e =>
            lastCheckedPrice w' = lastCheckedPrice w /\
            poolInfo w = None /\
            exists w1,
              raydium_initialize gw cfg w = (Thrown e, w1) /\
              w' = with_event (Log LError "Failed to check price") w1
        end) w.
Proof.
  unfold checkPrice. wp_steps.
  eapply wp_conseq; [apply ensureInitialized_spec |].
  intros [[] | e] w1 [HL HR]; cbv beta iota.
  - destruct (getCurrentPrice_some gw w1 HR) as [p Hp].
    apply wp_bind. eapply wp_run; [exact Hp |]. cbv beta iota.
    wp_steps. rewrite HL.
    assert (Hsame : forall w2, same_pool w1 w2 ->
              getCurrentPrice gw w2 = (Ok p, w2)).
    { intros w2 H2. rewrite getCurrentPrice_pure.
      rewrite (getCurrentPrice_congr gw w1 w2 H2), Hp. reflexivity. }
    destruct (lastCheckedPrice w) as [prev |]; wp_steps.
    + unfold priceChangeThreshold.
      destruct (_ <? _)%float eqn:Hsig; wp_steps; simpl;
        (split; [apply Hsame; repeat split | auto]).
    + simpl. split; [apply Hsame; repeat split | auto].
  - destruct HR as [Hnone Hrun]. wp_steps.
    split; [exact HL |]. split; [exact Hnone |].
    exists w1. split; [exact Hrun | reflexivity].
Qed.

(** C6. When [checkPrice] returns a sample with current price [p]: [p] is
    the pool's current price; with no previous stored price the percent
    change is null and the significant-change flag is false; with a previous
    stored price [prev] the percent change is [|p - prev| / prev] and the
    flag is the strict comparison
    [|p - prev| / prev > rebalanceThresholdPercent / 100]; in both cases the
    stored last price becomes [p]. The arithmetic is that of JavaScript
    numbers (IEEE binary64). *)
Theorem checkPrice_sample w r w' :
  checkPrice gw cfg w = (Ok r, w') ->
  let p := pr_currentPrice r in
  getCurrentPrice gw w' = (Ok p, w') /\
  lastCheckedPrice w' = Some p /\
  match lastCheckedPrice w with
  | None => percentChange r = None /\ significantChange r = false
  | Some prev =>
      percentChange r = Some (abs (p - prev) / prev)%float /\
      significantChange r =
        (rebalanceThresholdPercent cfg / 100 <? abs (p - prev) / prev)%float
  end.
Proof.
  intro E. exact (wp_inv _ _ _ _ _ (checkPrice_outcome w) E).
Qed.

(** C10. When [checkPrice] throws, the stored last price is the one from
    before the call, and the error thrown is the one raised by the pool
    read (the Raydium service's [initialize], run because no pool was
    cached), reported once in the log and re-raised. *)
Theorem checkPrice_failure_keeps_last_price w e w' :
  checkPrice gw cfg w = (Thrown e, w') ->
  lastCheckedPrice w' = lastCheckedPrice w /\
  poolInfo w = None /\
  exists w1,
    raydium_initialize gw cfg w = (Thrown e, w1) /\
    w' = with_event (Log LError "Failed to check price") w1.
Proof.
  intro E. exact (wp_inv _ _ _ _ _ (checkPrice_outcome w) E).
Qed.
End PriceMonitor.

(** * The rebalance decision *)
Section Decision.
Context {Chain : Type}.
Implicit Types w : World Chain.

(** [w'] is [w] with log lines added and nothing else changed. *)
Definition only_logged w w' : Prop :=
  poolInfo w' = poolInfo w /\ tokenA w' = tokenA w /\ tokenB w' = tokenB w /\
  lastCheckedPrice w' = lastCheckedPrice w /\
  isRunning w' = isRunning w /\ cronJob w' = cronJob w /\
  chain w' = chain w /\
  exists d, trace w' = (trace w ++ d)%list /\ Forall is_log d.

(** C5. The decision step returns true exactly when the price sample's
    significant-change flag is set, or the out-of-range count is positive,
    or the position count is zero; its value is the disjunction of these
    three tests and of nothing else, it never throws, and it changes
    nothing but the log. *)
Theorem decideRebalance_truth_table (priceInfo : PriceInfo)
        (positionInfo : PositionStatus) w :
  exists b w',
    decideRebalance priceInfo positionInfo w = (Ok b, w') /\
    (b = true <->
     significantChange priceInfo = true \/
     0 < outOfRangeCount positionInfo \/
     positionsCount positionInfo = 0) /\
    b = (significantChange priceInfo
         || (0 <? outOfRangeCount positionInfo)
         || (positionsCount positionInfo =? 0))%nat%bool /\
    only_logged w w'.
Proof.
  destruct priceInfo as [p sc pc], positionInfo as [n o].
  unfold decideRebalance, bind, log, emit, modify, ret, only_logged.
  destruct sc, o as [| o], n as [| n]; simpl;
    (eexists; eexists; split; [reflexivity |]);
    (split;
     [split;
      [intro Hb;
       first [discriminate Hb | left; reflexivity
             | right; left; lia | right; right; reflexivity]
      | intros [H | [H | H]]; first [reflexivity | discriminate | lia]] |]);
    (split; [reflexivity |]);
    simpl; repeat (split; [reflexivity |]);
    first [ exists []; split;
            [now rewrite app_nil_r | constructor]
          | eexists; split;
            [rewrite <- ?app_assoc; reflexivity
            | repeat constructor] ].
Qed.
End Decision.

(** * The control loop *)
Section ControlLoop.
Context {Chain : Type} (gw : Gateway Chain) (cfg : Config).
Implicit Types w : World Chain.

Lemma no_start_log l s : no_start (Log l s).
Proof. exact I. Qed.

Lemma no_start_notify t m c f :
  String.eqb t "Bot Started" = false -> no_start (Notify t m c f).
Proof. intro H. exact H. Qed.

Lemma no_start_submit tx r : no_start (Submit tx r).
Proof. exact I. Qed.

Lemma no_start_sleep ms : no_start (Sleep ms).
Proof. exact I. Qed.

Lemma sendNotification_spec t m c f w :
  wp (sendNotification gw cfg t m c f)
     (fun r w' =>
        r = Ok tt /\ isRunning w' = isRunning w /\ cronJob w' = cronJob w /\
        exists d,
          trace w' = (trace w ++ Notify t m c f :: d)%list /\
          Forall is_log d) w.
Proof.
  unfold sendNotification. wp_steps.
  destruct (webhookReady cfg); simpl; wp_steps.
  - apply wp_call. intros [[] | e] c0 _; cbv beta iota; wp_steps;
      (repeat (split; [reflexivity |])); simpl;
      (eexists; split;
       [rewrite <- ?app_assoc; reflexivity | repeat constructor]).
  - repeat (split; [reflexivity |]). simpl.
    eexists; split;
      [rewrite <- ?app_assoc; reflexivity | repeat constructor].
Qed.

Lemma count_logs f d :
  (forall l s, f (Log l s) = false) -> Forall is_log d -> count f d = 0.
Proof.
  intros Hf. induction 1 as [| e d He _ IH]; [reflexivity |].
  destruct e; simpl in He; try contradiction.
  unfold count in *. simpl. rewrite Hf. exact IH.
Qed.

Lemma count_no_timer d :
  Forall no_timer d -> count is_timer_armed d = 0.
Proof.
  induction 1 as [| e d He _ IH]; [reflexivity |].
  destruct e; simpl in He; try contradiction; exact IH.
Qed.

Lemma extends_no_timer w w' :
  extends no_timer w w' ->
  isRunning w' = isRunning w /\
  count is_timer_armed (trace w') = count is_timer_armed (trace w).
Proof.
  intros (R & _ & d & -> & F). split; [exact R |].
  rewrite count_app, (count_no_timer d F). lia.
Qed.

Lemma bot_initialize_no_timer : effects no_timer (bot_initialize gw cfg).
Proof.
  assert (Hlog : forall l s, no_timer (Log l s)) by (intros; exact I).
  assert (Hnotify : forall t m c f,
             String.eqb t "Bot Started" = false -> no_timer (Notify t m c f))
    by (intros; exact I).
  unfold bot_initialize.
  apply effects_tryCatch; [| intro error].
  - apply effects_bind; [apply effects_log, Hlog | intros _].
    apply effects_bind;
      [apply (effects_raydium_initialize gw cfg no_timer Hlog) | intros _].
    apply effects_bind; [| intros _; apply effects_log, Hlog].
    apply safe_effects, (safe_sendNotification gw cfg no_timer Hlog).
    exact I.
  - apply effects_bind; [apply effects_log, Hlog | intros _].
    apply effects_bind; [| intros _; apply effects_throw].
    apply safe_effects,
      (safe_sendErrorNotification gw cfg no_timer Hlog Hnotify).
Qed.

Lemma bot_initialize_spec w :
  wp (bot_initialize gw cfg)
     (fun r w' =>
        isRunning w' = isRunning w /\ cronJob w' = cronJob w /\
        match r with
        | Ok _ =>
            count is_bot_started (trace w')
            = count is_bot_started (trace w) + 1 /\
            count is_timer_armed (trace w')
            = count is_timer_armed (trace w)
        | Thrown _ => True
        end) w.
Proof.
  unfold bot_initialize. wp_steps.
  eapply wp_effects.
  { apply (effects_raydium_initialize gw cfg no_start). exact no_start_log. }
  intros r w1 H1. simpl in H1.
  destruct H1 as (R1 & C1 & d1 & T1 & F1). simpl in R1, C1, T1.
  destruct (count_no_start d1 F1) as [S1 A1].
  destruct r as [[] | e]; cbv beta iota.
  - wp_steps. eapply wp_conseq; [apply sendNotification_spec |].
    intros r2 w2 (-> & R2 & C2 & d2 & T2 & F2). cbv beta iota. wp_steps.
    simpl. rewrite R2, C2, R1, C1. repeat (split; [reflexivity |]).
    rewrite T2, T1.
    change (Notify ?t ?m ?c ?f :: d2) with ([Notify t m c f] ++ d2)%list.
    rewrite !count_app, S1, A1.
    rewrite !(count_logs _ d2) by (auto; intros; reflexivity).
    split; unfold count; simpl; lia.
  - wp_steps.
    eapply wp_safe.
    { apply (safe_sendErrorNotification gw cfg no_start).
      - exact no_start_log.
      - exact no_start_notify. }
    intros [] w2 (R2 & C2 & _). cbv beta iota. wp_steps.
    simpl in R2, C2. rewrite R2, C2, R1, C1. auto.
Qed.

(** Every way [start] can end from a stopped bot. *)
Lemma start_outcome w :
  isRunning w = false ->
  wp (start gw cfg)
     (fun r w' =>
        r = Ok tt /\
        (isRunning w' = true ->
         count is_bot_started (trace w')
         = count is_bot_started (trace w) + 1 /\
         count is_timer_armed (trace w')
         = count is_timer_armed (trace w) + 1)) w.
Proof.
  intro Hstopped. unfold start. wp_steps. rewrite Hstopped. wp_steps.
  eapply wp_conseq; [apply bot_initialize_spec |].
  assert (Hfail : forall e w1,
             isRunning w1 = false ->
             wp (log LError "Failed to start bot" ;;
                 sendErrorNotification gw cfg e [("action", "Starting bot")])
                (fun r w' =>
                   r = Ok tt /\
                   (isRunning w' = true ->
                    count is_bot_started (trace w')
                    = count is_bot_started (trace w) + 1 /\
                    count is_timer_armed (trace w')
                    = count is_timer_armed (trace w) + 1)) w1).
  { intros e w1 Hw1. wp_steps.
    eapply wp_safe.
    { apply (safe_sendErrorNotification gw cfg no_start).
      - exact no_start_log.
      - exact no_start_notify. }
    intros [] w2 (R2 & _). simpl in R2. split; [reflexivity |].
    rewrite R2, Hw1. discriminate. }
  intros [[] | e] w1 (R1 & C1 & H1); cbv beta iota.
  - wp_steps. apply wp_call. intros [[] | e] c _; cbv beta iota.
    + wp_steps. eapply wp_safe.
      { apply (safe_runIteration gw cfg no_start).
        - exact no_start_log.
        - exact no_start_notify.
        - intros. exact I.
        - intros. exact I.
        - exact no_start_sleep. }
      intros [] w2 H2. split; [reflexivity |]. intros _.
      destruct (extends_count_start _ _ H2) as [S2 A2].
      rewrite S2, A2. simpl. destruct H1 as [S1 A1].
      rewrite <- !app_assoc, !count_app, S1, A1.
      unfold count. simpl. lia.
    + apply Hfail. simpl. congruence.
  - apply Hfail. congruence.
Qed.

Lemma start_never_throws w : exists w', start gw cfg w = (Ok tt, w').
Proof.
  destruct (isRunning w) eqn:Hr.
  - unfold start, bind, gets, log, emit, modify. rewrite Hr. eauto.
  - pose proof (start_outcome w Hr) as H. unfold wp in H.
    destruct (start gw cfg w) as [r w']. simpl in H.
    destruct H as [-> _]. eauto.
Qed.

(** [start] arms its timer exactly when it leaves the loop running, and it
    leaves the loop running whenever the initialisation and the scheduling
    succeed. *)
Lemma start_arms_timer w :
  isRunning w = false ->
  wp (start gw cfg)
     (fun r w' =>
        r = Ok tt /\
        count is_timer_armed (trace w')
        = count is_timer_armed (trace w) + (if isRunning w' then 1 else 0) /\
        (forall w0 c,
            bot_initialize gw cfg w = (Ok tt, w0) ->
            cron_schedule gw
              ("*/" ++ js_intStr gw (checkIntervalMinutes cfg) ++ " * * * *")
              (chain w0)
            = (Ok tt, c) ->
            isRunning w' = true)) w.
Proof.
  intro Hstopped. unfold start. wp_steps. rewrite Hstopped. wp_steps.
  apply wp_eqn. intros r0 w0 E0.
  pose proof (bot_initialize_no_timer w) as F0. rewrite E0 in F0.
  apply extends_no_timer in F0. simpl in F0. destruct F0 as [R0 T0].
  rewrite Hstopped in R0.
  assert (Hfail : forall e w1,
             isRunning w1 = false ->
             count is_timer_armed (trace w1) = count is_timer_armed (trace w) ->
             (forall w0' c,
                 bot_initialize gw cfg w = (Ok tt, w0') ->
                 cron_schedule gw
                   ("*/" ++ js_intStr gw (checkIntervalMinutes cfg)
                      ++ " * * * *")
                   (chain w0')
                 = (Ok tt, c) ->
                 False) ->
             wp (log LError "Failed to start bot" ;;
                 sendErrorNotification gw cfg e [("action", "Starting bot")])
                (fun r w' =>
                   r = Ok tt /\
                   count is_timer_armed (trace w')
                   = count is_timer_armed (trace w)
                     + (if isRunning w' then 1 else 0) /\
                   (forall w0' c,
                       bot_initialize gw cfg w = (Ok tt, w0') ->
                       cron_schedule gw
                         ("*/" ++ js_intStr gw (checkIntervalMinutes cfg)
                            ++ " * * * *")
                         (chain w0')
                       = (Ok tt, c) ->
                       isRunning w' = true)) w1).
  { intros e w1 Hw1 Tw1 Hno. wp_steps.
    eapply wp_safe.
    { apply (safe_sendErrorNotification gw cfg no_timer).
      - intros; exact I.
      - intros; exact I. }
    intros [] w2 H2. apply extends_no_timer in H2. destruct H2 as [R2 T2].
    simpl in R2, T2. rewrite count_app, Tw1 in T2.
    change (count is_timer_armed [Log LError "Failed to start bot"])
      with 0 in T2.
    split; [reflexivity |]. rewrite R2, Hw1. split; [lia |].
    intros w0' c Ei Ec. destruct (Hno w0' c Ei Ec). }
  destruct r0 as [[] | e]; cbv beta iota.
  - wp_steps. apply wp_call. intros [[] | e] c Ec; cbv beta iota.
    + wp_steps. eapply wp_safe.
      { apply (safe_runIteration gw cfg no_timer); intros; exact I. }
      intros [] w2 H2. apply extends_no_timer in H2. destruct H2 as [R2 T2].
      simpl in R2, T2. split; [reflexivity |]. rewrite R2.
      split; [| intros; reflexivity].
      rewrite T2, <- !app_assoc, !count_app, T0. unfold count. simpl. lia.
    + apply Hfail.
      * simpl. exact R0.
      * simpl. exact T0.
      * intros w0' c' Ei Ec'. rewrite E0 in Ei. injection Ei as <-.
        rewrite Ec in Ec'. discriminate.
  - apply Hfail; [exact R0 | exact T0 |].
    intros w0' c Ei _. rewrite E0 in Ei. discriminate.
Qed.

(** C9. From a stopped bot, a first [start] returns normally and has armed
    one timer exactly when it leaves the loop running, which it does
    whenever the initialisation and the scheduling succeed. When the loop
    is running, a second [start] only logs the warning "Bot is already
    running": across the two calls one "Bot Started" notification was sent
    and one timer was armed. [stop] on a bot that is not running only logs
    the warning "Bot is not running" and sends no notification. *)
Theorem start_twice_stop_idle w :
  isRunning w = false ->
  (exists w1,
      start gw cfg w = (Ok tt, w1) /\
      count is_timer_armed (trace w1)
      = count is_timer_armed (trace w) + (if isRunning w1 then 1 else 0) /\
      (forall w0 c,
          bot_initialize gw cfg w = (Ok tt, w0) ->
          cron_schedule gw
            ("*/" ++ js_intStr gw (checkIntervalMinutes cfg) ++ " * * * *")
            (chain w0)
          = (Ok tt, c) ->
          isRunning w1 = true) /\
      (isRunning w1 = true ->
       let w2 := with_event (Log LWarn "Bot is already running") w1 in
       start gw cfg w1 = (Ok tt, w2) /\
       count is_bot_started (trace w2) = count is_bot_started (trace w) + 1 /\
       count is_timer_armed (trace w2) = count is_timer_armed (trace w) + 1))
  /\
  (let w' := with_event (Log LWarn "Bot is not running") w in
   stop gw cfg w = (Ok tt, w') /\
   count is_notification (trace w') = count is_notification (trace w)).
Proof.
  intro Hstopped. split.
  - destruct (start gw cfg w) as [r1 w1] eqn:E1.
    destruct (wp_inv _ _ _ _ _ (start_arms_timer w Hstopped) E1)
      as (-> & T1 & Hrunning).
    exists w1. split; [reflexivity |]. split; [exact T1 |].
    split; [exact Hrunning |].
    intro Hrun. cbv zeta.
    destruct (wp_inv _ _ _ _ _ (start_outcome w Hstopped) E1) as [_ Hc].
    destruct (Hc Hrun) as [S1 A1].
    split.
    + unfold start, bind, gets, log, emit, modify. rewrite Hrun. reflexivity.
    + simpl. rewrite !count_app, S1, A1. unfold count. simpl. lia.
  - cbv zeta. split.
    + unfold stop, bind, gets, log, emit, modify. rewrite Hstopped.
      reflexivity.
    + simpl. rewrite count_app. unfold count. simpl. lia.
Qed.
End ControlLoop.

(** * The position lifecycle *)
Section Lifecycle.
Context {Chain : Type} (gw : Gateway Chain) (cfg : Config).
Implicit Types w : World Chain.

Lemma no_submit_log l s : no_submit (Log l s).
Proof. exact I. Qed.

Lemma no_submit_notify t m c f :
  String.eqb t "Bot Started" = false -> no_submit (Notify t m c f).
Proof. intro H. exact I. Qed.

Lemma wp_submit tx Q w :
  (forall r c,
      rpc_sendAndConfirmTransaction gw tx (chain w) = (r, c) ->
      Q r (with_event (Submit tx r) (with_chain c w))) ->
  wp (submit gw tx) Q w.
Proof.
  unfold wp, submit. intro H.
  destruct (rpc_sendAndConfirmTransaction gw tx (chain w)) as [r c].
  simpl. apply H. reflexivity.
Qed.

Lemma effects_run {A} P (m : M Chain A) w r w1 :
  effects P m -> m w = (r, w1) -> extends P w w1.
Proof. intros H E. specialize (H w). rewrite E in H. exact H. Qed.

Local Ltac wp_quiet :=
  eapply wp_safe;
  [ first [ apply (safe_sendErrorNotification gw cfg no_submit)
          | apply (safe_sendPositionUpdate gw cfg no_submit) ];
    [ exact no_submit_log | exact no_submit_notify ]
  | let H := fresh "H" in intros [] ? H; cbv beta iota ].

Lemma createPosition_outcome a b pd w :
  pool_loaded pd w ->
  let price := decimal_sqrtPrice gw (sqrtPriceX64 pd) in
  let tx := OpenPositionTx (price * (1 - priceRangePercent cfg / 100))%float
                           (price * (1 + priceRangePercent cfg / 100))%float
                           a b in
  wp (createPosition gw cfg a b)
     (fun r w' =>
        (exists e, r = Thrown e /\
                   submitted (trace w') = submitted (trace w))
        \/ (submitted (trace w') = (submitted (trace w) ++ [(tx, r)])%list /\
            exists c c', rpc_sendAndConfirmTransaction gw tx c = (r, c'))) w.
Proof.
  intros Hl price tx. pose proof Hl as (Hp & Ha & Hb).
  unfold createPosition. wp_steps. rewrite Hp, Ha, Hb. wp_steps.
  eapply wp_run; [apply (getCurrentPrice_loaded gw pd w Hl) |].
  cbv beta iota. unfold calculatePriceRange. cbv zeta beta iota.
  set (lo := (decimal_sqrtPrice gw (sqrtPriceX64 pd)
              * (1 - priceRangePercent cfg / 100))%float) in *.
  set (up := (decimal_sqrtPrice gw (sqrtPriceX64 pd)
              * (1 + priceRangePercent cfg / 100))%float) in *.
  wp_steps. apply wp_call. intros [[] | e] c _; cbv beta iota.
  - wp_steps. unfold signAndSendTransaction. wp_steps.
    apply wp_call. intros [bh | e] c1 _; cbv beta iota.
    + wp_steps. apply wp_submit. intros [sig | e] c2 Esend; cbv beta iota.
      * wp_steps. simpl. rewrite Ha. simpl. wp_steps. simpl. rewrite Hb.
        simpl. wp_steps. wp_quiet. wp_steps. right.
        split; [| eauto].
        simpl. rewrite submitted_app, (extends_submitted _ _ H). simpl.
        rewrite !submitted_app. simpl. rewrite !app_nil_r. reflexivity.
      * wp_steps. wp_quiet. wp_steps. right.
        split; [| eauto].
        rewrite (extends_submitted _ _ H). simpl.
        rewrite !submitted_app. simpl. rewrite !app_nil_r. reflexivity.
    + wp_steps. wp_quiet. wp_steps. left. exists e. split; [reflexivity |].
      rewrite (extends_submitted _ _ H). simpl.
      rewrite !submitted_app. simpl. rewrite !app_nil_r. reflexivity.
  - wp_steps. wp_quiet. wp_steps. left. exists e. split; [reflexivity |].
    rewrite (extends_submitted _ _ H). simpl.
    rewrite !submitted_app. simpl. rewrite !app_nil_r. reflexivity.
Qed.

(** Every way [createOptimalPosition] can end. *)
Lemma createOptimalPosition_outcome w :
  wp (createOptimalPosition gw cfg)
     (fun r w' =>
        (r = Ok None /\ submitted (trace w') = submitted (trace w))
        \/
        (exists w1 balances w2 w3 pd w4 ba bb res,
            ensureInitialized gw cfg w = (Ok tt, w1) /\
            getTokenBalances gw w1 = (Ok balances, w2) /\
            getPositions gw cfg w2 = (Ok [], w3) /\
            fetchPoolInfo gw cfg w3 = (Ok pd, w4) /\
            map_get (mintA pd) balances = Some ba /\
            map_get (mintB pd) balances = Some bb /\
            (minAmount <= amount ba)%Z /\ (minAmount <= amount bb)%Z /\
            let price := decimal_sqrtPrice gw (sqrtPriceX64 pd) in
            submitted (trace w')
            = (submitted (trace w)
               ++ [(OpenPositionTx
                      (price * (1 - priceRangePercent cfg / 100))%float
                      (price * (1 + priceRangePercent cfg / 100))%float
                      (Z.quot (amount ba * 95) 100)
                      (Z.quot (amount bb * 95) 100), res)])%list /\
            r = Ok (match res with
                    | Ok sig => Some sig
                    | Thrown _ => None
                    end) /\
            exists tx c c',
              rpc_sendAndConfirmTransaction gw tx c = (res, c'))) w.
Proof.
  unfold createOptimalPosition. wp_steps.
  apply wp_eqn. intros r1 w1 E1.
  pose proof (effects_run no_submit _ _ _ _
                (effects_ensureInitialized gw cfg no_submit no_submit_log)
                E1) as F1.
  apply extends_submitted in F1.
  destruct r1 as [[] | e]; cbv beta iota;
    [| wp_steps; wp_quiet; wp_steps; left; split; [reflexivity |];
       rewrite (extends_submitted _ _ H); simpl;
       rewrite submitted_app, app_nil_r; exact F1 ].
  wp_steps. apply wp_eqn. intros r2 w2 E2.
  pose proof (effects_run no_submit _ _ _ _
                (effects_getTokenBalances gw no_submit no_submit_log)
                E2) as F2.
  apply extends_submitted in F2. rewrite F1 in F2.
  destruct r2 as [balances | e]; cbv beta iota;
    [| wp_steps; wp_quiet; wp_steps; left; split; [reflexivity |];
       rewrite (extends_submitted _ _ H); simpl;
       rewrite submitted_app, app_nil_r; exact F2 ].
  wp_steps. apply wp_eqn. intros r3 w3 E3.
  pose proof (effects_run no_submit _ _ _ _
                (effects_getPositions gw cfg no_submit no_submit_log)
                E3) as F3.
  apply extends_submitted in F3. rewrite F2 in F3.
  destruct r3 as [positions | e]; cbv beta iota;
    [| wp_steps; wp_quiet; wp_steps; left; split; [reflexivity |];
       rewrite (extends_submitted _ _ H); simpl;
       rewrite submitted_app, app_nil_r; exact F3 ].
  destruct positions as [| p positions]; simpl;
    [| wp_steps; left; split; [reflexivity |]; simpl;
       rewrite submitted_app, app_nil_r; exact F3 ].
  wp_steps. apply wp_eqn. intros r4 w4 E4.
  pose proof (effects_run no_submit _ _ _ _
                (effects_fetchPoolInfo gw cfg no_submit no_submit_log)
                E4) as F4.
  apply extends_submitted in F4. rewrite F3 in F4.
  pose proof (wp_inv _ _ _ _ _ (fetchPoolInfo_spec gw cfg w3) E4)
    as [_ Hl].
  destruct r4 as [pd | e]; cbv beta iota;
    [| wp_steps; wp_quiet; wp_steps; left; split; [reflexivity |];
       rewrite (extends_submitted _ _ H); simpl;
       rewrite submitted_app, app_nil_r; exact F4 ].
  assert (Hfloor : forall x y,
             ((x <? minAmount)%Z || (y <? minAmount)%Z) = false ->
             (minAmount <= x)%Z /\ (minAmount <= y)%Z).
  { intros x y Hxy. apply orb_false_iff in Hxy. destruct Hxy as [Hx Hy].
    apply Z.ltb_ge in Hx, Hy. auto. }
  destruct (map_get (mintA pd) balances) as [ba |] eqn:HA;
    [| wp_steps; left; split; [reflexivity |]; simpl;
       rewrite submitted_app, app_nil_r; exact F4 ].
  destruct (map_get (mintB pd) balances) as [bb |] eqn:HB;
    [| wp_steps; left; split; [reflexivity |]; simpl;
       rewrite submitted_app, app_nil_r; exact F4 ].
  destruct ((amount ba <? minAmount)%Z || (amount bb <? minAmount)%Z)
    eqn:Hlow;
    [ wp_steps; left; split; [reflexivity |]; simpl;
      rewrite submitted_app, app_nil_r; exact F4 |].
  destruct (Hfloor _ _ Hlow) as [HfA HfB].
  wp_steps.
  eapply wp_conseq;
    [ apply (createPosition_outcome _ _ pd); exact Hl |].
  simpl. rewrite submitted_app, app_nil_r, F4.
  intros r5 w5 [(e & -> & S5) | [S5 (c & c' & Esend)]].
  - wp_steps. wp_quiet. wp_steps. left. split; [reflexivity |].
    rewrite (extends_submitted _ _ H). simpl.
    rewrite submitted_app, app_nil_r. exact S5.
  - destruct r5 as [sig | e]; cbv beta iota.
    + wp_steps. right.
      exists w1, balances, w2, w3, pd, w4, ba, bb, (Ok sig).
      repeat (split; [assumption || reflexivity |]). eauto.
    + wp_steps. wp_quiet. wp_steps. right.
      exists w1, balances, w2, w3, pd, w4, ba, bb, (Thrown e).
      repeat (split; [assumption || reflexivity |]).
      split; [| split; [reflexivity | eauto]].
      rewrite (extends_submitted _ _ H). simpl.
      rewrite submitted_app, app_nil_r. exact S5.
Qed.

(** C7. [createOptimalPosition] returns none and submits no transaction
    when the positions it reads for the pool are not empty, whatever the
    balances; and it returns none and submits no transaction when the raw
    balance of either pool token is below the floor [minAmount] = 1000,
    whatever the positions. The reads are those the call performs: the
    token balances, then the positions, then the pool's two mints. *)
Theorem createOptimalPosition_no_action w w1 balances w2 positions w3 :
  ensureInitialized gw cfg w = (Ok tt, w1) ->
  getTokenBalances gw w1 = (Ok balances, w2) ->
  getPositions gw cfg w2 = (Ok positions, w3) ->
  (positions <> [] ->
   exists w',
     createOptimalPosition gw cfg w = (Ok None, w') /\
     submitted (trace w') = submitted (trace w))
  /\
  (forall pd w4 ba bb,
      fetchPoolInfo gw cfg w3 = (Ok pd, w4) ->
      map_get (mintA pd) balances = Some ba ->
      map_get (mintB pd) balances = Some bb ->
      (amount ba < minAmount)%Z \/ (amount bb < minAmount)%Z ->
      exists w',
        createOptimalPosition gw cfg w = (Ok None, w') /\
        submitted (trace w') = submitted (trace w)).
Proof.
  intros E1 E2 E3.
  destruct (createOptimalPosition gw cfg w) as [r w'] eqn:E.
  pose proof (wp_inv _ _ _ _ _ (createOptimalPosition_outcome w) E) as H.
  split.
  - intro Hne. destruct H as [[-> HS] | H]; [eauto |].
    destruct H as (v1 & bs & v2 & v3 & pd & v4 & ba & bb & res
                   & F1 & F2 & F3 & _).
    rewrite E1 in F1. injection F1 as <-.
    rewrite E2 in F2. injection F2 as <- <-.
    rewrite E3 in F3. injection F3 as -> _. contradiction.
  - intros pd w4 ba bb E4 HA HB Hlow.
    destruct H as [[-> HS] | H]; [eauto |].
    destruct H as (v1 & bs & v2 & v3 & pd' & v4 & ba' & bb' & res
                   & F1 & F2 & F3 & F4 & GA & GB & LA & LB & _).
    rewrite E1 in F1. injection F1 as <-.
    rewrite E2 in F2. injection F2 as <- <-.
    rewrite E3 in F3. injection F3 as -> <-.
    rewrite E4 in F4. injection F4 as <- <-.
    rewrite HA in GA. injection GA as <-.
    rewrite HB in GB. injection GB as <-.
    lia.
Qed.

(** C8. When [createOptimalPosition] hands a transaction to the chain, it
    is the only one of the call and it opens a position: the maximum
    amount of each token is its raw balance times 95 divided by 100,
    truncated ([Z.quot]), and the band runs from
    [currentPrice * (1 - priceRangePercent / 100)] to
    [currentPrice * (1 + priceRangePercent / 100)], where [currentPrice]
    is the price of the pool information fetched by the call. *)
Theorem createOptimalPosition_sizing w r w' :
  createOptimalPosition gw cfg w = (r, w') ->
  submitted (trace w') <> submitted (trace w) ->
  exists w1 balances w2 w3 pd w4 ba bb currentPrice res,
    ensureInitialized gw cfg w = (Ok tt, w1) /\
    getTokenBalances gw w1 = (Ok balances, w2) /\
    getPositions gw cfg w2 = (Ok [], w3) /\
    fetchPoolInfo gw cfg w3 = (Ok pd, w4) /\
    map_get (mintA pd) balances = Some ba /\
    map_get (mintB pd) balances = Some bb /\
    getCurrentPrice gw w4 = (Ok currentPrice, w4) /\
    submitted (trace w')
    = (submitted (trace w)
       ++ [(OpenPositionTx
              (currentPrice * (1 - priceRangePercent cfg / 100))%float
              (currentPrice * (1 + priceRangePercent cfg / 100))%float
              (Z.quot (amount ba * 95) 100)
              (Z.quot (amount bb * 95) 100), res)])%list.
Proof.
  intros E Hsub.
  pose proof (wp_inv _ _ _ _ _ (createOptimalPosition_outcome w) E) as H.
  destruct H as [[_ HS] | H]; [contradiction |].
  destruct H as (w1 & bs & w2 & w3 & pd & w4 & ba & bb & res
                 & F1 & F2 & F3 & F4 & GA & GB & _ & _ & HS & _).
  pose proof (wp_inv _ _ _ _ _ (fetchPoolInfo_spec gw cfg w3) F4)
    as [_ Hl].
  exists w1, bs, w2, w3, pd, w4, ba, bb,
    (decimal_sqrtPrice gw (sqrtPriceX64 pd)), res.
  repeat (split; [assumption |]).
  split; [apply getCurrentPrice_loaded; exact Hl | exact HS].
Qed.

(** *** Withdrawing *)

Lemma withdrawEach_app pre rest acc w sigs w2 :
  withdrawEach gw cfg pre acc w = (Ok sigs, w2) ->
  withdrawEach gw cfg (pre ++ rest) acc w = withdrawEach gw cfg rest sigs w2.
Proof.
  revert acc w. induction pre as [| p pre IH]; intros acc w E.
  - simpl in E. injection E as <- <-. reflexivity.
  - simpl in *. unfold bind in *. simpl in *.
    destruct (withdrawPosition gw cfg (positionId p) _) as [[s | e] w1];
      [| discriminate].
    apply IH. exact E.
Qed.

Lemma withdrawEach_length pre acc w sigs w2 :
  withdrawEach gw cfg pre acc w = (Ok sigs, w2) ->
  List.length sigs = List.length acc + List.length pre.
Proof.
  revert acc w. induction pre as [| p pre IH]; intros acc w E.
  - simpl in E. injection E as <- <-. simpl. lia.
  - simpl in *. unfold bind in *. simpl in *.
    destruct (withdrawPosition gw cfg (positionId p) _) as [[s | e] w1];
      [| discriminate].
    apply IH in E. rewrite length_app in E. simpl in *. lia.
Qed.

(** C1, as the code has it. [withdrawOutOfRangePositions] never throws.
    When the withdrawals of the out-of-range positions [pre] have been
    confirmed with signatures [sigs] and the withdrawal of the next one,
    [p], throws [e], the call returns the empty list: the signatures
    collected so far, one per position of [pre], are dropped. It stops
    there: the world it leaves is the one of the failed withdrawal
    followed by the error report, and the positions after [p] are not
    touched. *)
Theorem withdraw_failure_returns_nothing w :
  (exists sigs w', withdrawOutOfRangePositions gw cfg w = (Ok sigs, w'))
  /\
  (forall positions w1 pre p post sigs w2 e w3,
      getPositions gw cfg w = (Ok positions, w1) ->
      filter (fun position => negb (inRange position)) positions
      = (pre ++ p :: post)%list ->
      withdrawEach gw cfg pre [] w1 = (Ok sigs, w2) ->
      withdrawPosition gw cfg (positionId p)
        (with_event (Log LInfo "Withdrawing out-of-range position") w2)
      = (Thrown e, w3) ->
      List.length sigs = List.length pre /\
      withdrawOutOfRangePositions gw cfg w
      = (Ok [],
         snd (sendErrorNotification gw cfg e
                [("action", "Withdrawing out-of-range positions")]
                (with_event
                   (Log LError "Failed to withdraw out-of-range positions")
                   w3)))).
Proof.
  split.
  - destruct (safe_withdrawOutOfRangePositions gw cfg (fun _ => True)
                (fun _ _ => I) (fun _ _ _ _ _ => I) (fun _ _ => I) w)
      as [[sigs Hs] _].
    destruct (withdrawOutOfRangePositions gw cfg w) as [r w'].
    simpl in Hs. subst r. eauto.
  - intros positions w1 pre p post sigs w2 e w3 E1 Hf E2 E3.
    split; [exact (withdrawEach_length _ _ _ _ _ E2) |].
    unfold withdrawOutOfRangePositions.
    match goal with
    | |- tryCatch ?m ?h w = _ => assert (Hbody : m w = (Thrown e, w3))
    end.
    { erewrite run_bind_ok by exact E1. cbv beta zeta. rewrite Hf.
      rewrite length_app. simpl.
      replace (List.length pre + S (List.length post) =? 0)%nat
        with false by (symmetry; apply Nat.eqb_neq; lia).
      rewrite (withdrawEach_app _ _ _ _ _ _ E2). simpl.
      unfold bind at 1. unfold log, emit, modify.
      erewrite run_bind_thrown by exact E3. reflexivity. }
    rewrite (run_tryCatch_thrown _ _ _ _ _ Hbody).
    unfold bind at 1. unfold log, emit, modify. unfold bind at 1.
    destruct (safe_sendErrorNotification gw cfg (fun _ => True)
                (fun _ _ => I) (fun _ _ _ _ _ => I) e
                [("action", "Withdrawing out-of-range positions")]
                (with_event
                   (Log LError "Failed to withdraw out-of-range positions")
                   w3)) as [[[] Hn] _].
    destruct (sendErrorNotification gw cfg e _ _) as [rn wn].
    simpl in Hn. subst rn. reflexivity.
Qed.

(** *** Rebalancing *)

Lemma no_open_log l s : no_open (Log l s).
Proof. exact I. Qed.

Lemma no_open_notify t m c f :
  String.eqb t "Bot Started" = false -> no_open (Notify t m c f).
Proof. intro H. exact I. Qed.

Lemma no_open_close id r : no_open (Submit (ClosePositionTx id) r).
Proof. exact I. Qed.

Lemma opened_of_submitted t t' tx res :
  submitted t' = (submitted t ++ [(tx, res)])%list ->
  opened t'
  = (opened t ++ match tx, res with
                 | OpenPositionTx _ _ _ _, Ok sig => [sig]
                 | _, _ => []
                 end)%list.
Proof.
  intro H. unfold opened. rewrite H, flat_map_app. simpl.
  rewrite app_nil_r. reflexivity.
Qed.

Lemma opened_same t t' :
  submitted t' = submitted t -> opened t' = opened t.
Proof. unfold opened. intros ->. reflexivity. Qed.

(** [createOptimalPosition] in terms of confirmed open-position
    transactions: a signature is returned exactly when one was
    confirmed, and it is that one. *)
Lemma createOptimalPosition_opened w :
  wp (createOptimalPosition gw cfg)
     (fun r w' =>
        exists o,
          r = Ok o /\
          opened (trace w')
          = (opened (trace w) ++ match o with
                                 | Some sig => [sig]
                                 | None => []
                                 end)%list /\
          (forall sig, o = Some sig ->
                       exists tx c c',
                         rpc_sendAndConfirmTransaction gw tx c
                         = (Ok sig, c'))) w.
Proof.
  eapply wp_conseq; [apply createOptimalPosition_outcome |].
  intros r w' [[-> HS] | H].
  - exists None. split; [reflexivity |]. split.
    + rewrite app_nil_r. apply opened_same, HS.
    + discriminate.
  - destruct H as (w1 & bs & w2 & w3 & pd & w4 & ba & bb & res
                   & _ & _ & _ & _ & _ & _ & _ & _ & HS & -> & Hsend).
    eexists. split; [reflexivity |]. split.
    + rewrite (opened_of_submitted _ _ _ _ HS). destruct res; reflexivity.
    + intros sig Hsig. destruct res as [s | e]; [| discriminate].
      injection Hsig as ->. exact Hsend.
Qed.

Lemma app_one_neq {A} (l : list A) (x : A) : (l ++ [x])%list <> l.
Proof.
  intro H. apply (f_equal (@List.length A)) in H.
  rewrite length_app in H. simpl in H. lia.
Qed.

(** C4. Provided the chain never confirms a transaction with an empty
    signature, [rebalanceIfNeeded] never throws, and it returns true
    exactly when an open-position transaction was confirmed during the
    call; otherwise, also when positions were withdrawn and the opening
    then failed, it returns false and no position was opened. *)
Theorem rebalanceIfNeeded_true_iff_created
        (signatures_nonempty :
           forall tx c sig c',
             rpc_sendAndConfirmTransaction gw tx c = (Ok sig, c') ->
             sig <> EmptyString) w :
  exists b w',
    rebalanceIfNeeded gw cfg w = (Ok b, w') /\
    (b = true <->
     exists sig, opened (trace w') = (opened (trace w) ++ [sig])%list) /\
    (b = false <-> opened (trace w') = opened (trace w)).
Proof.
  assert (Hwp :
    wp (rebalanceIfNeeded gw cfg)
       (fun r w' =>
          exists b,
            r = Ok b /\
            ((b = true /\
              exists sig,
                opened (trace w') = (opened (trace w) ++ [sig])%list)
             \/ (b = false /\ opened (trace w') = opened (trace w)))) w).
  { assert (Hcreate : forall w1 (k : option string -> bool),
               opened (trace w1) = opened (trace w) ->
               (forall o, k o = truthy_opt o) ->
               wp (createOptimalPosition gw cfg)
                  (fun r w' =>
                     exists o,
                       r = Ok o /\
                       ((k o = true /\
                         exists sig,
                           opened (trace w')
                           = (opened (trace w) ++ [sig])%list)
                        \/ (k o = false /\
                            opened (trace w') = opened (trace w)))) w1).
    { intros w1 k H1 Hk. eapply wp_conseq; [apply createOptimalPosition_opened |].
      intros r w' (o & -> & Ho & Hsig). exists o. split; [reflexivity |].
      rewrite Hk, H1 in *. destruct o as [sig |]; simpl.
      - left. split; [| eauto].
        destruct (Hsig sig eq_refl) as (tx & c & c' & Hs).
        apply signatures_nonempty in Hs. unfold truthy.
        destruct (String.eqb_spec sig EmptyString); [contradiction | reflexivity].
      - right. split; [reflexivity |]. rewrite app_nil_r in Ho. exact Ho. }
    unfold rebalanceIfNeeded. wp_steps.
    eapply wp_effects.
    { apply (effects_getPositions gw cfg no_open). exact no_open_log. }
    intros r1 w1 H1. apply extends_opened in H1.
    destruct r1 as [positions | e]; cbv beta iota.
    - destruct (List.length positions =? 0)%nat.
      + wp_steps.
        eapply wp_conseq;
          [apply (Hcreate w1 truthy_opt H1); reflexivity |].
        intros r w' (o & -> & Ho). cbv beta iota. wp_steps.
        eexists. split; [reflexivity | exact Ho].
      + cbv zeta. wp_steps.
        destruct (0 <? List.length _)%nat.
        * wp_steps. eapply wp_safe.
          { apply (safe_withdrawOutOfRangePositions gw cfg no_open).
            - exact no_open_log.
            - exact no_open_notify.
            - exact no_open_close. }
          intros sigs w2 H2. apply extends_opened in H2.
          rewrite H1 in H2. cbv beta iota.
          destruct (0 <? List.length sigs)%nat.
          -- wp_steps.
             eapply wp_conseq;
               [apply (Hcreate _ truthy_opt); [| reflexivity] |].
             ++ simpl. rewrite opened_app, app_nil_r. exact H2.
             ++ intros r w' (o & -> & Ho). cbv beta iota. wp_steps.
                eexists. split; [reflexivity | exact Ho].
          -- wp_steps. exists false. split; [reflexivity |].
             right. split; [reflexivity | exact H2].
        * wp_steps. exists false. split; [reflexivity |].
          right. split; [reflexivity | exact H1].
    - wp_steps. eapply wp_safe.
      { apply (safe_sendErrorNotification gw cfg no_open).
        - exact no_open_log.
        - exact no_open_notify. }
      intros [] w2 H2. apply extends_opened in H2. cbv beta iota.
      wp_steps. exists false. split; [reflexivity |].
      right. split; [reflexivity |]. rewrite H2. simpl.
      rewrite opened_app, app_nil_r. exact H1. }
  unfold wp in Hwp. destruct (rebalanceIfNeeded gw cfg w) as [r w'].
  simpl in Hwp. destruct Hwp as (b & -> & Hb).
  exists b, w'. split; [reflexivity |].
  destruct Hb as [[-> [sig Hs]] | [-> Hs]].
  - split; split; auto; try discriminate; eauto.
    intro H. rewrite H in Hs. symmetry in Hs.
    exfalso. exact (app_one_neq _ _ Hs).
  - split; split; auto; try discriminate.
    intros [sig H]. rewrite Hs in H. symmetry in H.
    exfalso. exact (app_one_neq _ _ H).
Qed.
End Lifecycle.

(** * Timer ticks *)
Section TickFacts.
Context {Chain : Type} (gw : Gateway Chain) (cfg : Config).
Implicit Types l : Loop Chain.

Lemma tick_keeps_timer l : cronJob (bot (tick gw cfg l)) = cronJob (bot l).
Proof. unfold tick. destruct (cronJob (bot l)) eqn:E; simpl; auto. Qed.

Lemma tick_armed l :
  cronJob (bot l) <> None -> inFlight (tick gw cfg l) = S (inFlight l).
Proof.
  intro H. unfold tick, inFlight. destruct (cronJob (bot l)); [| contradiction].
  simpl. rewrite length_app. simpl. lia.
Qed.

(** A tick on an idle loop, left to finish, is one run of the callback. *)
Lemma tick_settle_callback l :
  suspended l = [] ->
  cronJob (bot l) <> None ->
  bot (settle (tick gw cfg l)) = snd (cronCallback gw cfg (bot l)).
Proof.
  intros Hs Hc. unfold tick, settle.
  destruct (cronJob (bot l)); [| contradiction].
  simpl. rewrite Hs. simpl.
  unfold cronCallback, runIteration, tryCatch, bind, log, emit, modify.
  reflexivity.
Qed.

(** C3, as the code has it. While the timer is armed, every tick starts
    an iteration, whether or not earlier ones have finished: after [n]
    ticks with nothing finishing in between, [n] more iterations are in
    flight, and none was skipped. *)
Theorem ticks_start_iterations l n :
  cronJob (bot l) <> None ->
  inFlight (loopRun gw cfg l (repeat Tick n)) = inFlight l + n /\
  cronJob (bot (loopRun gw cfg l (repeat Tick n))) = cronJob (bot l).
Proof.
  revert l. induction n as [| n IH]; intros l H; simpl.
  - split; [lia | reflexivity].
  - assert (H' : cronJob (bot (tick gw cfg l)) <> None)
      by (rewrite tick_keeps_timer; exact H).
    destruct (IH (tick gw cfg l) H') as [I1 I2]. unfold loopRun in *.
    rewrite I1, I2, tick_keeps_timer, (tick_armed l H).
    split; [lia | reflexivity].
Qed.
End TickFacts.

(** * Runs on scripted chains *)
Section ScriptedRuns.
Import Scripted.

Lemma scripted_signatures_nonempty tx c sig c' :
  rpc_sendAndConfirmTransaction gateway tx c = (Ok sig, c') -> sig <> EmptyString.
Proof.
  simpl. destruct (next (sends c)) as [[s | e] rest]; simpl.
  - destruct s; simpl; intro H; inversion H. discriminate.
  - discriminate.
Qed.

(** The claim of C1 fails on the code: with two out-of-range positions,
    the first withdrawal confirmed as SIG1 and the second rejected, the
    call returns the empty list, not the list of the signatures
    collected before the failure. *)
Lemma withdraw_partial_results_lost :
  closed (trace (snd (withdrawOutOfRangePositions gateway config
                        (fresh second_withdrawal_fails))))
  = ["SIG1"] /\
  fst (withdrawOutOfRangePositions gateway config
         (fresh second_withdrawal_fails))
  = Ok [] /\
  fst (withdrawOutOfRangePositions gateway config
         (fresh second_withdrawal_fails))
  <> Ok ["SIG1"].
Proof.
  vm_compute. repeat split. discriminate.
Qed.

Lemma withdraw_failure_returns_nothing_witness :
  exists w',
    withdrawOutOfRangePositions gateway config
      (fresh second_withdrawal_fails) = (Ok [], w') /\
    closed (trace w') = ["SIG1"].
Proof.
  destruct (withdraw_failure_returns_nothing gateway config
              (fresh second_withdrawal_fails)) as [_ H].
  pose (w1 := snd (getPositions gateway config
                     (fresh second_withdrawal_fails))).
  pose (p1 := formatPosition gateway
                {| tk_mint := "MINT_A"; tk_symbol := "SOL";
                   tk_decimals := 9 |}
                {| tk_mint := "MINT_B"; tk_symbol := "USDC";
                   tk_decimals := 6 |}
                100 (position "P1" 10 20)).
  pose (p2 := formatPosition gateway
                {| tk_mint := "MINT_A"; tk_symbol := "SOL";
                   tk_decimals := 9 |}
                {| tk_mint := "MINT_B"; tk_symbol := "USDC";
                   tk_decimals := 6 |}
                100 (position "P2" 30 40)).
  pose (w2 := snd (withdrawEach gateway config [p1] [] w1)).
  pose (w3 := snd (withdrawPosition gateway config "P2"
                     (with_event
                        (Log LInfo "Withdrawing out-of-range position")
                        w2))).
  destruct (H [p1; p2] w1 [p1] p2 [] ["SIG1"] w2
              "Transaction was not confirmed" w3) as [_ E];
    try (vm_compute; reflexivity).
  eexists. split; [exact E |]. vm_compute. reflexivity.
Defined.

(** C2 on the code: when the pool cannot be read, the Raydium service's
    [initialize] throws, and [start] returns normally all the same: the
    bot is left stopped, no timer is armed, and nothing reaches the
    caller. *)
Theorem start_swallows_pool_failure :
  fst (raydium_initialize gateway config (fresh pool_unreachable))
  = Thrown "fetch failed" /\
  fst (start gateway config (fresh pool_unreachable)) = Ok tt /\
  isRunning (snd (start gateway config (fresh pool_unreachable))) = false /\
  cronJob (snd (start gateway config (fresh pool_unreachable))) = None /\
  count is_timer_armed
    (trace (snd (start gateway config (fresh pool_unreachable)))) = 0.
Proof.
  vm_compute. repeat split.
Qed.

(** The claim of C3 fails on the code: on a started bot, a tick begins an
    iteration, and a second tick that fires before it has finished begins
    another one: two iterations are in flight. *)
Lemma tick_overlaps_iteration :
  inFlight (loopRun gateway config idle [Tick]) = 1 /\
  inFlight (loopRun gateway config idle [Tick; Tick]) = 2 /\
  ~ inFlight (loopRun gateway config idle [Tick; Tick]) <= 1.
Proof.
  repeat split. change (~ 2 <= 1). lia.
Qed.

Lemma ticks_start_iterations_witness :
  inFlight (loopRun gateway config idle [Tick; Tick; Tick]) = 3.
Proof.
  destruct (ticks_start_iterations gateway config idle 3) as [H _].
  - discriminate.
  - exact H.
Defined.

Lemma rebalanceIfNeeded_true_iff_created_witness :
  exists b w',
    rebalanceIfNeeded gateway config (fresh withdraw_then_create_fails)
    = (Ok b, w') /\
    (b = true <->
     exists sig,
       opened (trace w')
       = (opened (trace (fresh withdraw_then_create_fails)) ++ [sig])%list)
    /\
    (b = false <->
     opened (trace w') = opened (trace (fresh withdraw_then_create_fails))).
Proof.
  exact (rebalanceIfNeeded_true_iff_created gateway config
           scripted_signatures_nonempty
           (fresh withdraw_then_create_fails)).
Defined.

Lemma checkPrice_sample_witness :
  checkPrice gateway config (watching (Some 100%float) 102 empty_wallet_funded)
  = (Ok {| pr_currentPrice := 102;
           significantChange := true;
           percentChange := Some (abs (102 - 100) / 100)%float |},
     with_lastCheckedPrice 102
       (with_event (Log LInfo "Significant price change detected")
          (watching (Some 100%float) 102 empty_wallet_funded)))
  /\
  lastCheckedPrice
    (with_lastCheckedPrice 102
       (with_event (Log LInfo "Significant price change detected")
          (watching (Some 100%float) 102 empty_wallet_funded)))
  = Some 102%float.
Proof.
  assert (E : checkPrice gateway config
                (watching (Some 100%float) 102 empty_wallet_funded)
              = (Ok {| pr_currentPrice := 102;
                       significantChange := true;
                       percentChange := Some (abs (102 - 100) / 100)%float |},
                 with_lastCheckedPrice 102
                   (with_event
                      (Log LInfo "Significant price change detected")
                      (watching (Some 100%float) 102 empty_wallet_funded))))
    by (vm_compute; reflexivity).
  destruct (checkPrice_sample gateway config _ _ _ E) as (_ & H & _).
  split; [exact E | exact H].
Defined.

Lemma checkPrice_failure_keeps_last_price_witness :
  lastCheckedPrice
    (snd (checkPrice gateway config
            (mkWorld None None None (Some 100%float) false None
                     pool_unreachable [])))
  = Some 100%float.
Proof.
  destruct (checkPrice_failure_keeps_last_price gateway config
              (mkWorld None None None (Some 100%float) false None
                       pool_unreachable [])
              "fetch failed"
              (snd (checkPrice gateway config
                      (mkWorld None None None (Some 100%float) false None
                               pool_unreachable []))))
    as (H & _).
  - vm_compute. reflexivity.
  - exact H.
Defined.

Lemma createOptimalPosition_no_action_witness :
  (exists w',
      createOptimalPosition gateway config (fresh one_position_in_range)
      = (Ok None, w') /\
      submitted (trace w') = submitted (trace (fresh one_position_in_range)))
  /\
  (exists w',
      createOptimalPosition gateway config (fresh token_b_below_floor)
      = (Ok None, w') /\
      submitted (trace w') = submitted (trace (fresh token_b_below_floor))).
Proof.
  split.
  - pose (w1 := snd (ensureInitialized gateway config
                       (fresh one_position_in_range))).
    pose (w2 := snd (getTokenBalances gateway w1)).
    pose (w3 := snd (getPositions gateway config w2)).
    destruct (createOptimalPosition_no_action gateway config
                (fresh one_position_in_range) w1
                [("MINT_A", balance "MINT_A" 5000);
                 ("MINT_B", balance "MINT_B" 7000)]
                w2
                [formatPosition gateway
                   {| tk_mint := "MINT_A"; tk_symbol := "SOL";
                      tk_decimals := 9 |}
                   {| tk_mint := "MINT_B"; tk_symbol := "USDC";
                      tk_decimals := 6 |}
                   100 (position "P1" 90 110)]
                w3) as [H _];
      try (vm_compute; reflexivity).
    apply H. discriminate.
  - pose (w1 := snd (ensureInitialized gateway config
                       (fresh token_b_below_floor))).
    pose (w2 := snd (getTokenBalances gateway w1)).
    pose (w3 := snd (getPositions gateway config w2)).
    pose (w4 := snd (fetchPoolInfo gateway config w3)).
    destruct (createOptimalPosition_no_action gateway config
                (fresh token_b_below_floor) w1
                [("MINT_A", balance "MINT_A" 5000);
                 ("MINT_B", balance "MINT_B" 999)]
                w2 [] w3) as [_ H];
      try (vm_compute; reflexivity).
    apply (H (pool 100) w4 (balance "MINT_A" 5000) (balance "MINT_B" 999));
      try (vm_compute; reflexivity).
    right. reflexivity.
Defined.

Lemma createOptimalPosition_sizing_witness :
  exists lower upper amountMaxA amountMaxB res,
    submitted
      (trace (snd (createOptimalPosition gateway config
                     (fresh empty_wallet_funded))))
    = [(OpenPositionTx lower upper amountMaxA amountMaxB, res)].
Proof.
  destruct (createOptimalPosition_sizing gateway config
              (fresh empty_wallet_funded)
              (fst (createOptimalPosition gateway config
                      (fresh empty_wallet_funded)))
              (snd (createOptimalPosition gateway config
                      (fresh empty_wallet_funded))))
    as (w1 & bs & w2 & w3 & pd & w4 & ba & bb & cp & res & H).
  - apply surjective_pairing.
  - vm_compute. discriminate.
  - destruct H as (_ & _ & _ & _ & _ & _ & _ & H).
    do 5 eexists. exact H.
Defined.

Lemma start_twice_stop_idle_witness :
  isRunning (snd (start gateway config (fresh empty_wallet_funded))) = true
  /\
  start gateway config (snd (start gateway config (fresh empty_wallet_funded)))
  = (Ok tt,
     with_event (Log LWarn "Bot is already running")
       (snd (start gateway config (fresh empty_wallet_funded))))
  /\
  count is_bot_started
    (trace (with_event (Log LWarn "Bot is already running")
              (snd (start gateway config (fresh empty_wallet_funded)))))
  = 1
  /\
  count is_timer_armed
    (trace (with_event (Log LWarn "Bot is already running")
              (snd (start gateway config (fresh empty_wallet_funded)))))
  = 1
  /\
  stop gateway config (fresh empty_wallet_funded)
  = (Ok tt,
     with_event (Log LWarn "Bot is not running") (fresh empty_wallet_funded)).
Proof.
  destruct (start_twice_stop_idle gateway config (fresh empty_wallet_funded))
    as [(w1 & E & _ & Hrunning & Htwice) [H2 _]]; [reflexivity |].
  rewrite E. cbn [snd].
  assert (Hrun : isRunning w1 = true).
  { apply (Hrunning
             (snd (bot_initialize gateway config (fresh empty_wallet_funded)))
             (chain (snd (bot_initialize gateway config
                            (fresh empty_wallet_funded)))));
      vm_compute; reflexivity. }
  destruct (Htwice Hrun) as (E2 & S & T).
  split; [exact Hrun |]. split; [exact E2 |].
  split; [exact S |]. split; [exact T | exact H2].
Defined.

(** The funded wallet with no position: one transaction, opening a position
    at 95..105 around the price 100 with 4750 and 6650 of the 5000 and 7000
    raw units. *)
Example funded_wallet_opens_one_position :
  submitted (trace (snd (createOptimalPosition gateway config
                           (fresh empty_wallet_funded))))
  = [(OpenPositionTx 95 105 4750 6650, Ok "SIG_OPEN")].
Proof. vm_compute. reflexivity. Qed.

(** The withdrawal is confirmed, the opening is rejected: the result is
    false, and the withdrawal stays done. *)
Example withdrawn_then_not_created :
  fst (rebalanceIfNeeded gateway config (fresh withdraw_then_create_fails))
  = Ok false /\
  closed (trace (snd (rebalanceIfNeeded gateway config
                        (fresh withdraw_then_create_fails))))
  = ["SIG_CLOSE"] /\
  opened (trace (snd (rebalanceIfNeeded gateway config
                        (fresh withdraw_then_create_fails))))
  = [].
Proof. vm_compute. repeat split. Qed.
End ScriptedRuns.

(** * Further properties of the services *)

(** ** The drift baseline is written by [checkPrice] alone *)
Section Baseline.
Context {Chain : Type}.

(** [keeps_price m]: [m] leaves the stored last price as it was. *)
Definition keeps_price {A} (m : M Chain A) : Prop :=
  forall w, lastCheckedPrice (snd (m w)) = lastCheckedPrice w.

Lemma keeps_price_ret {A} (a : A) : keeps_price (ret a).
Proof. intro w. reflexivity. Qed.

Lemma keeps_price_throw {A} e : keeps_price (@throw Chain A e).
Proof. intro w. reflexivity. Qed.

Lemma keeps_price_gets {A} (f : World Chain -> A) : keeps_price (gets f).
Proof. intro w. reflexivity. Qed.

Lemma keeps_price_call {A} (f : Chain -> Result A * Chain) :
  keeps_price (call f).
Proof. intro w. unfold call. destruct (f (chain w)). reflexivity. Qed.

Lemma keeps_price_emit e : keeps_price (emit (Chain := Chain) e).
Proof. intro w. reflexivity. Qed.

Lemma keeps_price_log l s : keeps_price (log (Chain := Chain) l s).
Proof. intro w. reflexivity. Qed.

Lemma keeps_price_with_pool pd a b :
  keeps_price (modify (Chain := Chain) (with_pool pd a b)).
Proof. intro w. reflexivity. Qed.

Lemma keeps_price_bind {A B} (m : M Chain A) (k : A -> M Chain B) :
  keeps_price m -> (forall a, keeps_price (k a)) -> keeps_price (bind m k).
Proof.
  intros Hm Hk w. unfold bind. specialize (Hm w).
  destruct (m w) as [[a | e] w1]; simpl in *; [| exact Hm].
  rewrite Hk. exact Hm.
Qed.

Lemma keeps_price_tryCatch {A} (m : M Chain A) (h : Error -> M Chain A) :
  keeps_price m -> (forall e, keeps_price (h e)) ->
  keeps_price (tryCatch m h).
Proof.
  intros Hm Hh w. unfold tryCatch. specialize (Hm w).
  destruct (m w) as [[a | e] w1]; simpl in *; [exact Hm |].
  rewrite Hh. exact Hm.
Qed.

Lemma keeps_price_run {A} (m : M Chain A) w r w' :
  keeps_price m -> m w = (r, w') -> lastCheckedPrice w' = lastCheckedPrice w.
Proof. intros H E. specialize (H w). rewrite E in H. exact H. Qed.
End Baseline.

Create HintDb baseline.

Ltac kp_step :=
  match goal with
  | |- keeps_price (bind _ _) => apply keeps_price_bind; [| intro]
  | |- keeps_price (tryCatch _ _) => apply keeps_price_tryCatch; [| intro]
  | |- keeps_price (ret _) => apply keeps_price_ret
  | |- keeps_price (throw _) => apply keeps_price_throw
  | |- keeps_price (gets _) => apply keeps_price_gets
  | |- keeps_price (call _) => apply keeps_price_call
  | |- keeps_price (log _ _) => apply keeps_price_log
  | |- keeps_price (emit _) => apply keeps_price_emit
  | |- keeps_price (if ?b then _ else _) => destruct b
  | |- keeps_price (match ?x with _ => _ end) => destruct x
  end.

Ltac kp := repeat kp_step; eauto with baseline.

Section BaselineOfServices.
Context {Chain : Type} (gw : Gateway Chain) (cfg : Config).

Local Hint Resolve keeps_price_with_pool : baseline.

Lemma keeps_price_sendNotification t m c f :
  keeps_price (sendNotification gw cfg t m c f).
Proof. unfold sendNotification. kp. Qed.
Local Hint Resolve keeps_price_sendNotification : baseline.

Lemma keeps_price_sendErrorNotification e ctx :
  keeps_price (sendErrorNotification gw cfg e ctx).
Proof. unfold sendErrorNotification. kp. Qed.
Local Hint Resolve keeps_price_sendErrorNotification : baseline.

Lemma keeps_price_sendPositionUpdate a d :
  keeps_price (sendPositionUpdate gw cfg a d).
Proof. unfold sendPositionUpdate. kp. Qed.
Local Hint Resolve keeps_price_sendPositionUpdate : baseline.

Lemma keeps_price_getCurrentPrice : keeps_price (getCurrentPrice gw).
Proof. unfold getCurrentPrice. kp. Qed.
Local Hint Resolve keeps_price_getCurrentPrice : baseline.

Lemma keeps_price_fetchPoolInfo : keeps_price (fetchPoolInfo gw cfg).
Proof. unfold fetchPoolInfo. kp. Qed.
Local Hint Resolve keeps_price_fetchPoolInfo : baseline.

Lemma keeps_price_raydium_initialize :
  keeps_price (raydium_initialize gw cfg).
Proof. unfold raydium_initialize. kp. Qed.
Local Hint Resolve keeps_price_raydium_initialize : baseline.

Lemma keeps_price_ensureInitialized : keeps_price (ensureInitialized gw cfg).
Proof. unfold ensureInitialized, isPoolInitialized. kp. Qed.
Local Hint Resolve keeps_price_ensureInitialized : baseline.

Lemma keeps_price_nonNull {A} (x : option A) :
  keeps_price (nonNull (Chain := Chain) x).
Proof. unfold nonNull. kp. Qed.
Local Hint Resolve keeps_price_nonNull : baseline.

Lemma keeps_price_getPositions : keeps_price (getPositions gw cfg).
Proof. unfold getPositions. kp. Qed.
Local Hint Resolve keeps_price_getPositions : baseline.

Lemma keeps_price_getTokenBalances : keeps_price (getTokenBalances gw).
Proof. unfold getTokenBalances. kp. Qed.
Local Hint Resolve keeps_price_getTokenBalances : baseline.

Lemma keeps_price_getSolBalance : keeps_price (getSolBalance gw).
Proof. unfold getSolBalance. kp. Qed.
Local Hint Resolve keeps_price_getSolBalance : baseline.

Lemma keeps_price_submit tx : keeps_price (submit gw tx).
Proof.
  intro w. unfold submit.
  destruct (rpc_sendAndConfirmTransaction gw tx (chain w)). reflexivity.
Qed.
Local Hint Resolve keeps_price_submit : baseline.

Lemma keeps_price_signAndSendTransaction tx :
  keeps_price (signAndSendTransaction gw tx).
Proof. unfold signAndSendTransaction. kp. Qed.
Local Hint Resolve keeps_price_signAndSendTransaction : baseline.

Lemma keeps_price_withdrawPosition id :
  keeps_price (withdrawPosition gw cfg id).
Proof. unfold withdrawPosition. kp. Qed.
Local Hint Resolve keeps_price_withdrawPosition : baseline.

Lemma keeps_price_createPosition a b :
  keeps_price (createPosition gw cfg a b).
Proof. unfold createPosition. kp. Qed.
Local Hint Resolve keeps_price_createPosition : baseline.

Lemma keeps_price_createOptimalPosition :
  keeps_price (createOptimalPosition gw cfg).
Proof. unfold createOptimalPosition. kp. Qed.
Local Hint Resolve keeps_price_createOptimalPosition : baseline.

Lemma keeps_price_withdrawEach ps sigs :
  keeps_price (withdrawEach gw cfg ps sigs).
Proof. revert sigs. induction ps as [| p ps IH]; intro sigs; simpl; kp. Qed.
Local Hint Resolve keeps_price_withdrawEach : baseline.

Lemma keeps_price_withdrawOutOfRangePositions :
  keeps_price (withdrawOutOfRangePositions gw cfg).
Proof. unfold withdrawOutOfRangePositions. kp. Qed.
Local Hint Resolve keeps_price_withdrawOutOfRangePositions : baseline.

Lemma keeps_price_checkPositions : keeps_price (checkPositions gw cfg).
Proof. unfold checkPositions. kp. Qed.

Lemma keeps_price_formatBalances entries acc :
  keeps_price (formatBalances (Chain := Chain) entries acc).
Proof.
  revert acc. induction entries as [| [mint bal] rest IH]; intro acc; simpl.
  - kp.
  - unfold getTokenAMint, getTokenBMint. kp.
Qed.
Local Hint Resolve keeps_price_formatBalances : baseline.

Lemma keeps_price_checkWalletBalances :
  keeps_price (checkWalletBalances gw cfg).
Proof. unfold checkWalletBalances. kp. Qed.

Lemma keeps_price_decideRebalance pi ps :
  keeps_price (decideRebalance (Chain := Chain) pi ps).
Proof. unfold decideRebalance. kp. Qed.

Lemma keeps_price_rebalanceIfNeeded : keeps_price (rebalanceIfNeeded gw cfg).
Proof. unfold rebalanceIfNeeded. kp. Qed.

(** X1. [rebalanceIfNeeded] never writes the stored last price: whatever it
    withdraws or creates, and whatever fails, the drift baseline of the
    price monitor is the one from before the call. *)
Theorem rebalanceIfNeeded_keeps_baseline w :
  lastCheckedPrice (snd (rebalanceIfNeeded gw cfg w)) = lastCheckedPrice w.
Proof. apply keeps_price_rebalanceIfNeeded. Qed.
End BaselineOfServices.

#[global] Hint Resolve keeps_price_sendErrorNotification
  keeps_price_checkPositions keeps_price_checkWalletBalances
  keeps_price_decideRebalance keeps_price_rebalanceIfNeeded : baseline.

(** ** The pool cache and the positions read from it *)
Section PoolReads.
Context {Chain : Type} (gw : Gateway Chain) (cfg : Config).
Implicit Types w : World Chain.

(** X2. A successful [fetchPoolInfo] leaves the cache holding the pool it
    returns, with token symbols SOL and USDC, so that the current price read
    from the cache is the square-root price conversion itself, never its
    inverse. A failed [fetchPoolInfo] leaves the cache as it was. *)
Theorem fetchPoolInfo_cache w r w' :
  fetchPoolInfo gw cfg w = (r, w') ->
  match r with
  | Ok pd =>
      pool_loaded pd w' /\
      getCurrentPrice gw w'
      = (Ok (decimal_sqrtPrice gw (sqrtPriceX64 pd)), w')
  | Thrown _ => same_pool w w'
  end.
Proof.
  intro E.
  pose proof (wp_inv _ _ _ _ _ (fetchPoolInfo_spec gw cfg w) E) as [_ H].
  destruct r as [pd | e]; [| exact H].
  split; [exact H | apply getCurrentPrice_loaded; exact H].
Qed.

(** X3. When the SDK answers the pool query with nothing, [fetchPoolInfo]
    throws "Pool not found: <pool id>", writes one error line, and the cache
    is untouched. *)
Theorem fetchPoolInfo_not_found w c :
  sdk_fetchPoolInfo gw (chain w) = (Ok None, c) ->
  fetchPoolInfo gw cfg w
  = (Thrown ("Pool not found: " ++ poolId cfg),
     with_event (Log LError "Failed to fetch pool info") (with_chain c w)).
Proof.
  intro E. unfold fetchPoolInfo, tryCatch, bind, call, throw, log, emit, modify.
  rewrite E. reflexivity.
Qed.

(** What a list returned by [getPositions] is, in the world it leaves: the
    positions the SDK listed for the configured pool, in order, each with the
    cached price and its in-range flag. *)
Definition positions_listed (ps : list PositionInfo) w' : Prop :=
  exists price owned c c',
    getCurrentPrice gw w' = (Ok price, w') /\
    sdk_getPositionsByOwner gw c = (Ok owned, c') /\
    map positionId ps
    = map op_nftMint
          (filter (fun p => String.eqb (op_poolId p) (poolId cfg)) owned) /\
    Forall (fun p =>
              currentPrice p = price /\
              inRange p
              = ((lowerPrice p <=? price) && (price <=? upperPrice p))%float)
           ps.

Lemma getPositions_outcome w :
  wp (getPositions gw cfg)
     (fun r w' =>
        match r with
        | Ok ps => positions_listed ps w'
        | Thrown _ => True
        end) w.
Proof.
  unfold getPositions. wp_steps.
  eapply wp_conseq with (Q := fun _ _ => True); [exact I |].
  intros [[] | e] w1 _; cbv beta iota; [| wp_steps; exact I].
  wp_steps. apply wp_call.
  intros [owned | e] c Ecall; cbv beta iota; [| wp_steps; exact I].
  cbv zeta. wp_steps. apply wp_eqn. intros r2 w2 E2.
  assert (w2 = with_chain c w1) as ->.
  { rewrite getCurrentPrice_pure in E2. injection E2 as _ <-. reflexivity. }
  destruct r2 as [price | e]; cbv beta iota; [| wp_steps; exact I].
  remember (filter (fun p => String.eqb (op_poolId p) (poolId cfg)) owned)
    as mine eqn:Hm.
  assert (Hgen : forall ta tb,
             positions_listed (map (formatPosition gw ta tb price) mine)
                              (with_chain c w1)).
  { intros ta tb. exists price, owned, (chain w1), c.
    split; [exact E2 |]. split; [exact Ecall |]. split.
    - rewrite map_map, <- Hm. reflexivity.
    - apply Forall_map. apply Forall_forall. intros p _. simpl. auto. }
  destruct mine as [| p rest].
  - wp_steps. exists price, owned, (chain w1), c.
    repeat split; auto. rewrite <- Hm. reflexivity.
  - wp_steps. simpl.
    destruct (tokenB w1) as [tb |]; simpl; wp_steps; [| exact I].
    simpl. destruct (tokenA w1) as [ta |]; simpl; wp_steps; [| exact I].
    apply Hgen.
Qed.

(** X4. The positions [getPositions] returns are the wallet's positions of
    the configured pool, in the SDK's order and under their NFT mints;
    positions of other pools are left out. All carry one and the same current
    price, the cached pool price, and each in-range flag is
    [lower <= price <= upper] for that price. *)
Theorem getPositions_listing w ps w' :
  getPositions gw cfg w = (Ok ps, w') -> positions_listed ps w'.
Proof.
  intro E. exact (wp_inv _ _ _ _ _ (getPositions_outcome w) E).
Qed.

(** X5. [checkPositions] counts what [getPositions] returned: the total, and
    the positions whose in-range flag is false; the out-of-range count never
    exceeds the total, and the stored last price is not touched. *)
Theorem checkPositions_counts w st w' :
  checkPositions gw cfg w = (Ok st, w') ->
  exists ps w1,
    getPositions gw cfg w = (Ok ps, w1) /\
    positionsCount st = List.length ps /\
    outOfRangeCount st
    = List.length (filter (fun p => negb (inRange p)) ps) /\
    outOfRangeCount st <= positionsCount st /\
    lastCheckedPrice w' = lastCheckedPrice w.
Proof.
  intro E.
  pose proof (keeps_price_run _ _ _ _ (keeps_price_checkPositions gw cfg) E)
    as HL.
  unfold checkPositions, tryCatch, bind in E.
  destruct (getPositions gw cfg w) as [[ps | e] w1] eqn:E1.
  - simpl in E. injection E as <- <-. exists ps, w1.
    repeat split; auto. simpl. apply filter_length_le.
  - simpl in E. discriminate.
Qed.

(** X6. Once a pool is cached, [checkPrice] cannot fail and asks the chain
    nothing: it reports the cached price and leaves the chain and the cache
    as they were. The observed price moves only when something else
    refetches the pool. *)
Theorem checkPrice_reads_cache w :
  poolInfo w <> None ->
  exists r w',
    checkPrice gw cfg w = (Ok r, w') /\
    getCurrentPrice gw w = (Ok (pr_currentPrice r), w) /\
    chain w' = chain w /\ same_pool w w'.
Proof.
  intro Hp. destruct (getCurrentPrice_some gw w Hp) as [p Ep].
  unfold checkPrice, ensureInitialized, isPoolInitialized, tryCatch, bind,
    gets, ret, modify, log, emit.
  destruct (poolInfo w) as [pd |] eqn:Hpd; [| contradiction]. simpl.
  rewrite Ep. simpl.
  destruct (lastCheckedPrice w) as [prev |]; simpl.
  - destruct (_ <? _)%float; simpl;
      (eexists; eexists; split; [reflexivity |]); simpl;
      repeat split; auto.
  - eexists; eexists; split; [reflexivity |]; simpl; repeat split; auto.
Qed.
End PoolReads.

(** ** Notifications *)
Section Notifications.
Context {Chain : Type} (gw : Gateway Chain) (cfg : Config).
Implicit Types w : World Chain.

(** X7. [sendNotification] never throws, whatever the webhook does: a failed
    send is only logged. Each call is one notification; it changes neither
    the pool cache, the stored last price nor the bot's flags, and without a
    webhook client the chain is not contacted at all. *)
Theorem sendNotification_never_fatal t m c f w :
  exists w',
    sendNotification gw cfg t m c f w = (Ok tt, w') /\
    count is_notification (trace w')
    = count is_notification (trace w) + 1 /\
    same_pool w w' /\
    lastCheckedPrice w' = lastCheckedPrice w /\
    isRunning w' = isRunning w /\ cronJob w' = cronJob w /\
    (webhookReady cfg = false -> chain w' = chain w).
Proof.
  unfold sendNotification, tryCatch, bind, call, emit, log, modify.
  destruct (webhookReady cfg); simpl.
  - destruct (webhook_send gw t (chain w)) as [[[] | e] c0]; simpl;
      (eexists; split; [reflexivity |]); simpl;
      rewrite !count_app; unfold count; simpl;
      repeat split; auto; discriminate.
  - eexists; split; [reflexivity |]. simpl.
    rewrite !count_app. unfold count. simpl. repeat split; auto.
Qed.
End Notifications.

(** ** The control loop, further *)

Definition is_timer_stopped (e : Event) : bool :=
  match e with
  | CronStop => true
  | _ => false
  end.

Definition is_bot_stopped (e : Event) : bool :=
  match e with
  | Notify t _ _ _ => String.eqb t "Bot Stopped"
  | _ => false
  end.

(** The bot's two fields agree: the flag is set exactly when a timer is
    held. *)
Definition bot_consistent {Chain : Type} (w : World Chain) : Prop :=
  isRunning w = true <-> cronJob w <> None.

Definition any_event (e : Event) : Prop := True.

Section ControlLoopMore.
Context {Chain : Type} (gw : Gateway Chain) (cfg : Config).
Implicit Types w : World Chain.

Lemma stop_outcome w :
  isRunning w = true ->
  cronJob w <> None ->
  exists w',
    stop gw cfg w = (Ok tt, w') /\
    isRunning w' = false /\ cronJob w' = None /\
    count is_timer_stopped (trace w')
    = count is_timer_stopped (trace w) + 1 /\
    count is_bot_stopped (trace w') = count is_bot_stopped (trace w) + 1 /\
    lastCheckedPrice w' = lastCheckedPrice w.
Proof.
  intros Hr Hc. unfold stop.
  unfold bind at 1. unfold gets at 1. unfold bind at 1. unfold gets at 1.
  rewrite Hr. destruct (cronJob w) as [j |] eqn:Hj; [| contradiction].
  simpl.
  unfold bind at 1. unfold emit at 1, modify at 1.
  unfold bind at 1. unfold modify at 1.
  unfold bind at 1. unfold modify at 1.
  unfold bind at 1. unfold log, emit at 1, modify at 1.
  match goal with
  | |- context [sendNotification gw cfg ?t ?m ?c ?f ?w0] =>
      pose proof (wp_inv _ _ _ _ _ (sendNotification_spec gw cfg t m c f w0)
                    (surjective_pairing _)) as (Hres & R & C & d & T & F);
      pose proof (keeps_price_sendNotification gw cfg t m c f w0) as L;
      destruct (sendNotification gw cfg t m c f w0) as [r w']
  end.
  simpl in *. subst r. exists w'. split; [reflexivity |].
  rewrite R, C, L, T.
  change (Notify ?a ?b ?c0 ?f0 :: d) with ([Notify a b c0 f0] ++ d)%list.
  rewrite !count_app.
  rewrite !(count_logs _ d) by (auto; intros; reflexivity).
  unfold count. simpl. repeat split; auto; lia.
Qed.

Lemma runIteration_outcome w :
  exists w',
    runIteration gw cfg w = (Ok tt, w') /\
    isRunning w' = isRunning w /\ cronJob w' = cronJob w.
Proof.
  destruct (safe_runIteration gw cfg any_event
              (fun _ _ => I) (fun _ _ _ _ _ => I) (fun _ _ => I)
              (fun _ _ _ _ _ => I) (fun _ => I) w)
    as [[[] Hr] (R & C & _)].
  destruct (runIteration gw cfg w) as [r w']. simpl in *. subst r.
  exists w'. auto.
Qed.

(** X8. [stop] on a running bot stops its timer, clears the timer and the
    flag, sends one "Bot Stopped" notification and returns normally; the
    stored last price stays. *)
Theorem stop_running w :
  isRunning w = true ->
  cronJob w <> None ->
  exists w',
    stop gw cfg w = (Ok tt, w') /\
    isRunning w' = false /\ cronJob w' = None /\
    count is_timer_stopped (trace w')
    = count is_timer_stopped (trace w) + 1 /\
    count is_bot_stopped (trace w') = count is_bot_stopped (trace w) + 1 /\
    lastCheckedPrice w' = lastCheckedPrice w.
Proof. exact (stop_outcome w). Qed.

(** X9. [runIteration] never throws, and it neither stops the bot nor
    touches its timer: every failure inside an iteration is caught there. *)
Theorem runIteration_contained w :
  exists w',
    runIteration gw cfg w = (Ok tt, w') /\
    isRunning w' = isRunning w /\ cronJob w' = cronJob w.
Proof. exact (runIteration_outcome w). Qed.

Lemma start_consistent w :
  bot_consistent w -> bot_consistent (snd (start gw cfg w)).
Proof.
  intro Hc.
  assert (Hwp : wp (start gw cfg) (fun _ w' => bot_consistent w') w).
  { unfold start. wp_steps.
    unfold bot_consistent in Hc.
    destruct (isRunning w) eqn:Hr; wp_steps;
      [unfold bot_consistent; simpl; rewrite Hr; exact Hc |].
    assert (Hnone : cronJob w = None).
    { destruct (cronJob w) eqn:Hj; [| reflexivity].
      destruct Hc as [_ Hc].
      assert (Habs : false = true) by (apply Hc; discriminate).
      discriminate Habs. }
    assert (Hfail : forall e w1,
               isRunning w1 = false -> cronJob w1 = None ->
               wp (log LError "Failed to start bot" ;;
                   sendErrorNotification gw cfg e [("action", "Starting bot")])
                  (fun _ w' => bot_consistent w') w1).
    { intros e w1 H1 H2. wp_steps. eapply wp_safe.
      { apply (safe_sendErrorNotification gw cfg any_event);
          intros; exact I. }
      intros [] w2 (R2 & C2 & _). simpl in R2, C2. unfold bot_consistent.
      rewrite R2, C2, H1, H2. split; [discriminate | congruence]. }
    eapply wp_conseq; [apply bot_initialize_spec |].
    intros [[] | e] w1 (R1 & C1 & _); cbv beta iota.
    - wp_steps. apply wp_call. intros [[] | e] c _; cbv beta iota.
      + wp_steps. eapply wp_safe.
        { apply (safe_runIteration gw cfg any_event); intros; exact I. }
        intros [] w2 (R2 & C2 & _). simpl in R2, C2. unfold bot_consistent.
        rewrite R2, C2. split; [discriminate | reflexivity].
      + apply Hfail; simpl; congruence.
    - apply Hfail; congruence. }
  exact Hwp.
Qed.

(** X10. The agreement of the bot's two fields, [isRunning] set exactly when
    a timer is held, is kept by [start], by [stop] and by [runIteration]. *)
Theorem bot_consistent_kept w :
  bot_consistent w ->
  bot_consistent (snd (start gw cfg w)) /\
  bot_consistent (snd (stop gw cfg w)) /\
  bot_consistent (snd (runIteration gw cfg w)).
Proof.
  intro Hc. split; [apply start_consistent; exact Hc |]. split.
  - destruct (isRunning w) eqn:Hr.
    + assert (Hj : cronJob w <> None) by (apply Hc; exact Hr).
      destruct (stop_outcome w Hr Hj) as (w' & E & R & C & _).
      rewrite E. simpl. unfold bot_consistent. rewrite R, C.
      split; [discriminate | congruence].
    + unfold stop, bind, gets, log, emit, modify. rewrite Hr. simpl.
      unfold bot_consistent in *. simpl. exact Hc.
  - destruct (runIteration_outcome w) as (w' & E & R & C).
    rewrite E. simpl. unfold bot_consistent. rewrite R, C. exact Hc.
Qed.
End ControlLoopMore.

(** ** One iteration *)
Section Iteration.
Context {Chain : Type} (gw : Gateway Chain) (cfg : Config).
Implicit Types w : World Chain.

Lemma no_submit_any_notify t m c f :
  String.eqb t "Bot Started" = false -> no_submit (Notify t m c f).
Proof. intro H. exact I. Qed.

Lemma tryCatch_bind_ok {A B} (m : M Chain A) (k : A -> M Chain B) h w a w1 :
  m w = (Ok a, w1) -> tryCatch (bind m k) h w = tryCatch (k a) h w1.
Proof. intro E. unfold tryCatch, bind. rewrite E. reflexivity. Qed.

Lemma tryCatch_bind_thrown {A B} (m : M Chain A) (k : A -> M Chain B)
      h w e w1 :
  m w = (Thrown e, w1) -> tryCatch (bind m k) h w = h e w1.
Proof. intro E. unfold tryCatch, bind. rewrite E. reflexivity. Qed.

Lemma runIteration_unfold w :
  runIteration gw cfg w
  = iterationSteps gw cfg (with_event (Log LInfo "Running bot iteration") w).
Proof. reflexivity. Qed.

(** X11. When [checkPrice] throws, the iteration ends there: positions and
    balances are not read, nothing is decided, the error is reported once
    as a "Bot iteration" error, no transaction is submitted and the stored
    last price stays. [runIteration] still returns normally. *)
Theorem runIteration_price_failure w e w1 :
  checkPrice gw cfg (with_event (Log LInfo "Running bot iteration") w)
  = (Thrown e, w1) ->
  exists w',
    runIteration gw cfg w = (Ok tt, w') /\
    w' = snd (sendErrorNotification gw cfg e [("action", "Bot iteration")]
                (with_event (Log LError "Error in bot iteration") w1)) /\
    submitted (trace w') = submitted (trace w) /\
    lastCheckedPrice w' = lastCheckedPrice w.
Proof.
  intro E. rewrite runIteration_unfold. unfold iterationSteps.
  rewrite (tryCatch_bind_thrown _ _ _ _ _ _ E).
  unfold bind at 1. unfold log at 1, emit at 1, modify at 1.
  pose proof (effects_run no_submit _ _ _ _
                (effects_checkPrice gw cfg no_submit no_submit_log) E) as F1.
  apply extends_submitted in F1.
  pose proof (wp_inv _ _ _ _ _ (checkPrice_outcome gw cfg _) E)
    as (HL & _).
  destruct (safe_sendErrorNotification gw cfg no_submit no_submit_log
              no_submit_any_notify e [("action", "Bot iteration")]
              (with_event (Log LError "Error in bot iteration") w1))
    as [[[] Hr] Hx].
  pose proof (keeps_price_sendErrorNotification gw cfg e
                [("action", "Bot iteration")]
                (with_event (Log LError "Error in bot iteration") w1)) as HK.
  apply extends_submitted in Hx.
  destruct (sendErrorNotification gw cfg e _ _) as [r w'].
  simpl in *. subst r. exists w'. split; [reflexivity |].
  split; [reflexivity |]. split.
  - rewrite Hx, submitted_app, app_nil_r, F1, submitted_app, app_nil_r.
    reflexivity.
  - rewrite HK. exact HL.
Qed.

(** X12. When [checkPrice] succeeds, the stored last price at the end of the
    iteration is the price of that sample, whatever the later steps do: a
    failing monitor, a rebalance, a position created at a refetched price. *)
Theorem runIteration_baseline w r w1 :
  checkPrice gw cfg (with_event (Log LInfo "Running bot iteration") w)
  = (Ok r, w1) ->
  lastCheckedPrice (snd (runIteration gw cfg w)) = Some (pr_currentPrice r).
Proof.
  intro E. rewrite runIteration_unfold. unfold iterationSteps.
  rewrite (tryCatch_bind_ok _ _ _ _ _ _ E).
  pose proof (wp_inv _ _ _ _ _ (checkPrice_outcome gw cfg _) E)
    as (_ & HL & _).
  rewrite <- HL.
  match goal with
  | |- lastCheckedPrice (snd (?m w1)) = _ =>
      assert (K : keeps_price m) by kp
  end.
  apply K.
Qed.

(** X13. When the price sample shows no significant change, no position is
    out of range and at least one position exists, the iteration submits no
    transaction: [rebalanceIfNeeded] is not called. *)
Theorem runIteration_no_rebalance w priceInfo w1 positionInfo w2 :
  checkPrice gw cfg (with_event (Log LInfo "Running bot iteration") w)
  = (Ok priceInfo, w1) ->
  checkPositions gw cfg w1 = (Ok positionInfo, w2) ->
  significantChange priceInfo = false ->
  outOfRangeCount positionInfo = 0 ->
  positionsCount positionInfo <> 0 ->
  submitted (trace (snd (runIteration gw cfg w))) = submitted (trace w).
Proof.
  intros E1 E2 Hs Ho Hp. rewrite runIteration_unfold. unfold iterationSteps.
  rewrite (tryCatch_bind_ok _ _ _ _ _ _ E1).
  rewrite (tryCatch_bind_ok _ _ _ _ _ _ E2).
  pose proof (effects_run no_submit _ _ _ _
                (effects_checkPrice gw cfg no_submit no_submit_log) E1) as F1.
  pose proof (effects_run no_submit _ _ _ _
                (effects_checkPositions gw cfg no_submit no_submit_log) E2)
    as F2.
  apply extends_submitted in F1, F2. simpl in F1.
  rewrite submitted_app, app_nil_r in F1. rewrite F1 in F2.
  match goal with
  | |- submitted (trace (snd (?m w2))) = _ =>
      assert (Hwp : wp m (fun _ w' =>
                            submitted (trace w') = submitted (trace w2)) w2)
  end.
  { wp_steps. eapply wp_effects.
    { apply (effects_checkWalletBalances gw cfg no_submit no_submit_log
               no_submit_any_notify). }
    intros r3 w3 F3. apply extends_submitted in F3.
    assert (Hfail : forall e w4,
               submitted (trace w4) = submitted (trace w2) ->
               wp (log LError "Error in bot iteration" ;;
                   sendErrorNotification gw cfg e [("action", "Bot iteration")])
                  (fun _ w' => submitted (trace w') = submitted (trace w2))
                  w4).
    { intros e w4 H4. wp_steps. eapply wp_safe.
      { apply (safe_sendErrorNotification gw cfg no_submit no_submit_log
                 no_submit_any_notify). }
      intros [] w5 H5. apply extends_submitted in H5. rewrite H5. simpl.
      rewrite submitted_app, app_nil_r. exact H4. }
    destruct r3 as [bal | e]; cbv beta iota; [| apply Hfail; exact F3].
    unfold decideRebalance. rewrite Hs, Ho.
    destruct (positionsCount positionInfo) as [| n]; [contradiction |].
    simpl. wp_steps. simpl.
    rewrite !submitted_app. simpl. rewrite !app_nil_r. exact F3. }
  unfold wp in Hwp. rewrite Hwp. exact F2.
Qed.
End Iteration.

(** ** The position lifecycle, further *)
Section LifecycleMore.
Context {Chain : Type} (gw : Gateway Chain) (cfg : Config).
Implicit Types w : World Chain.

Lemma filter_out_of_range_nil (ps : list PositionInfo) :
  forallb inRange ps = true ->
  filter (fun position => negb (inRange position)) ps = [].
Proof.
  induction ps as [| p ps IH]; simpl; [reflexivity |].
  intro H. apply andb_true_iff in H. destruct H as [Hp Hps].
  rewrite Hp. simpl. apply IH, Hps.
Qed.

(** X14. When the pool has positions and all of them are in range,
    [rebalanceIfNeeded] reads the positions and does nothing more: it
    returns false in the world that read left. A significant price change
    alone therefore moves no position. *)
Theorem rebalanceIfNeeded_all_in_range w ps w1 :
  getPositions gw cfg w = (Ok ps, w1) ->
  ps <> [] ->
  forallb inRange ps = true ->
  rebalanceIfNeeded gw cfg w = (Ok false, w1).
Proof.
  intros E Hne Hall. unfold rebalanceIfNeeded.
  apply run_tryCatch_ok. erewrite run_bind_ok by exact E.
  destruct ps as [| p ps]; [contradiction |].
  cbv zeta. rewrite (filter_out_of_range_nil _ Hall). reflexivity.
Qed.

(** X15. When positions are out of range and [withdrawOutOfRangePositions]
    comes back with no signature (a withdrawal failed, or its own reading
    found nothing to withdraw), [rebalanceIfNeeded] creates nothing: it
    returns false in the world the withdrawal left, without the settle
    delay. *)
Theorem rebalanceIfNeeded_nothing_withdrawn w ps w1 w2 :
  getPositions gw cfg w = (Ok ps, w1) ->
  filter (fun position => negb (inRange position)) ps <> [] ->
  withdrawOutOfRangePositions gw cfg w1 = (Ok [], w2) ->
  rebalanceIfNeeded gw cfg w = (Ok false, w2).
Proof.
  intros E Hout Ew. unfold rebalanceIfNeeded.
  apply run_tryCatch_ok. erewrite run_bind_ok by exact E.
  destruct ps as [| p ps]; [contradiction Hout; reflexivity |].
  cbv zeta.
  destruct (filter (fun position => negb (inRange position)) (p :: ps))
    as [| q qs] eqn:Hf; [contradiction Hout; reflexivity |].
  change (List.length (p :: ps) =? 0)%nat with false.
  change (0 <? List.length (q :: qs))%nat with true.
  cbv iota. erewrite run_bind_ok.
  2:{ erewrite run_bind_ok by exact Ew. reflexivity. }
  reflexivity.
Qed.

(** X16. [createOptimalPosition] returns none and submits no transaction
    when the wallet holds no token account for one of the pool's two mints. *)
Theorem createOptimalPosition_missing_balance
        w w1 balances w2 w3 pd w4 :
  ensureInitialized gw cfg w = (Ok tt, w1) ->
  getTokenBalances gw w1 = (Ok balances, w2) ->
  getPositions gw cfg w2 = (Ok [], w3) ->
  fetchPoolInfo gw cfg w3 = (Ok pd, w4) ->
  map_get (mintA pd) balances = None \/ map_get (mintB pd) balances = None ->
  createOptimalPosition gw cfg w
  = (Ok None,
     with_event (Log LWarn "Missing token balances needed for position") w4).
Proof.
  intros E1 E2 E3 E4 Hm. unfold createOptimalPosition.
  apply run_tryCatch_ok.
  erewrite run_bind_ok by exact E1. erewrite run_bind_ok by exact E2.
  erewrite run_bind_ok by exact E3.
  change (0 <? List.length (@nil PositionInfo))%nat with false. cbv iota.
  erewrite run_bind_ok by exact E4. cbv zeta.
  destruct Hm as [Hm | Hm]; rewrite Hm.
  - reflexivity.
  - destruct (map_get (mintA pd) balances); reflexivity.
Qed.

(** X17. Whenever [createOptimalPosition] submits a transaction, the
    balances it read for the two mints of the pool it fetched were both at
    least 1000 raw units, and the transaction offers for token A between 950
    and the balance of the pool's mint A, and for token B between 950 and
    the balance of the pool's mint B: for neither token does the bot offer
    more than the wallet holds of it. *)
Theorem createOptimalPosition_amount_bounds w r w' :
  createOptimalPosition gw cfg w = (r, w') ->
  submitted (trace w') <> submitted (trace w) ->
  exists w1 balances w2 w3 pd w4 ba bb lower upper amountA amountB res,
    ensureInitialized gw cfg w = (Ok tt, w1) /\
    getTokenBalances gw w1 = (Ok balances, w2) /\
    getPositions gw cfg w2 = (Ok [], w3) /\
    fetchPoolInfo gw cfg w3 = (Ok pd, w4) /\
    map_get (mintA pd) balances = Some ba /\
    map_get (mintB pd) balances = Some bb /\
    submitted (trace w')
    = (submitted (trace w)
       ++ [(OpenPositionTx lower upper amountA amountB, res)])%list /\
    (1000 <= amount ba)%Z /\ (1000 <= amount bb)%Z /\
    (950 <= amountA <= amount ba)%Z /\
    (950 <= amountB <= amount bb)%Z.
Proof.
  intros E Hsub.
  pose proof (wp_inv _ _ _ _ _ (createOptimalPosition_outcome gw cfg w) E)
    as H.
  destruct H as [[_ HS] | H]; [contradiction |].
  destruct H as (w1 & bs & w2 & w3 & pd & w4 & ba & bb & res
                 & F1 & F2 & F3 & F4 & GA & GB & LA & LB & HS & _).
  exists w1, bs, w2, w3, pd, w4, ba, bb. do 4 eexists. exists res.
  split; [exact F1 |]. split; [exact F2 |]. split; [exact F3 |].
  split; [exact F4 |]. split; [exact GA |]. split; [exact GB |].
  split; [exact HS |].
  unfold minAmount in *.
  split; [exact LA |]. split; [exact LB |].
  rewrite !Z.quot_div_nonneg by lia.
  split; split;
    first [ apply Z.div_le_lower_bound; lia
          | apply Z.div_le_upper_bound; lia ].
Qed.
End LifecycleMore.

(** ** Transactions and withdrawals *)
Section Withdrawals.
Context {Chain : Type} (gw : Gateway Chain) (cfg : Config).
Implicit Types w : World Chain.

Local Ltac wp_silent :=
  eapply wp_safe;
  [ first [ apply (safe_sendErrorNotification gw cfg no_submit)
          | apply (safe_sendPositionUpdate gw cfg no_submit) ];
    [ exact no_submit_log | exact no_submit_notify ]
  | let H := fresh "H" in intros [] ? H; cbv beta iota ].

Local Ltac same_submitted H :=
  rewrite (extends_submitted _ _ H); simpl;
  rewrite ?submitted_app; simpl; rewrite ?app_nil_r.

Lemma signAndSendTransaction_outcome tx w :
  wp (signAndSendTransaction gw tx)
     (fun r w' =>
        (submitted (trace w') = submitted (trace w) /\
         exists e, r = Thrown e)
        \/ submitted (trace w') = (submitted (trace w) ++ [(tx, r)])%list) w.
Proof.
  unfold signAndSendTransaction. wp_steps.
  apply wp_call. intros [bh | e] c _; cbv beta iota.
  - wp_steps. apply wp_submit. intros [sig | e] c2 _; cbv beta iota;
      wp_steps; right; simpl; rewrite ?submitted_app; simpl;
      rewrite ?app_nil_r; reflexivity.
  - wp_steps. left. split; [| eauto]. simpl.
    rewrite ?submitted_app. simpl. rewrite ?app_nil_r. reflexivity.
Qed.

(** X18. [signAndSendTransaction] hands the chain at most one transaction,
    the one it was given, and its result is the chain's answer to it; when
    the recent blockhash cannot be fetched it throws without submitting
    anything. *)
Theorem signAndSendTransaction_submits_once tx w r w' :
  signAndSendTransaction gw tx w = (r, w') ->
  (submitted (trace w') = submitted (trace w) /\ exists e, r = Thrown e)
  \/ submitted (trace w') = (submitted (trace w) ++ [(tx, r)])%list.
Proof.
  intro E. exact (wp_inv _ _ _ _ _ (signAndSendTransaction_outcome tx w) E).
Qed.

(** Every way [withdrawPosition] can end. *)
Lemma withdrawPosition_outcome id w :
  wp (withdrawPosition gw cfg id)
     (fun r w' =>
        match r with
        | Ok sig =>
            submitted (trace w')
            = (submitted (trace w) ++ [(ClosePositionTx id, Ok sig)])%list
        | Thrown e =>
            submitted (trace w') = submitted (trace w) \/
            submitted (trace w')
            = (submitted (trace w) ++ [(ClosePositionTx id, Thrown e)])%list
        end) w.
Proof.
  unfold withdrawPosition. wp_steps.
  eapply wp_effects with (P := no_submit).
  { destruct (poolInfo w); eff.
    apply (effects_fetchPoolInfo gw cfg no_submit no_submit_log). }
  intros r1 w1 H1. apply extends_submitted in H1.
  destruct r1 as [[] | e]; cbv beta iota.
  - wp_steps. apply wp_call. intros [[] | e] c _; cbv beta iota.
    + wp_steps.
      eapply wp_conseq; [apply signAndSendTransaction_outcome |].
      intros r2 w2 [[S2 [e ->]] | S2]; cbv beta iota.
      * wp_steps. wp_silent. wp_steps. left.
        same_submitted H. rewrite S2. simpl. exact H1.
      * simpl in S2. rewrite H1 in S2. destruct r2 as [sig | e];
          cbv beta iota.
        -- wp_steps. wp_silent. wp_steps. simpl.
           rewrite submitted_app, app_nil_r.
           rewrite (extends_submitted _ _ H). exact S2.
        -- wp_steps. wp_silent. wp_steps. right.
           same_submitted H. exact S2.
    + wp_steps. wp_silent. wp_steps. left. same_submitted H. exact H1.
  - wp_steps. wp_silent. wp_steps. left. same_submitted H. exact H1.
Qed.

(** What the loop of [withdrawOutOfRangePositions] hands to the chain. *)
Lemma withdrawEach_outcome ps acc w :
  wp (withdrawEach gw cfg ps acc)
     (fun r w' =>
        exists news,
          submitted (trace w') = (submitted (trace w) ++ news)%list /\
          Forall (fun s => exists p, In p ps /\
                                     fst s = ClosePositionTx (positionId p))
                 news /\
          match r with
          | Ok sigs =>
              exists got,
                sigs = (acc ++ got)%list /\
                news = map (fun ps => (ClosePositionTx (positionId (fst ps)),
                                       Ok (snd ps)))
                           (combine ps got) /\
                List.length got = List.length ps
          | Thrown _ => True
          end) w.
Proof.
  revert acc w. induction ps as [| p ps IH]; intros acc w; simpl.
  - wp_steps. exists []. rewrite app_nil_r. split; [reflexivity |].
    split; [constructor |]. exists []. rewrite app_nil_r. auto.
  - wp_steps.
    eapply wp_conseq; [apply withdrawPosition_outcome |].
    simpl. rewrite submitted_app, app_nil_r.
    intros [sig | e] w1 H1; cbv beta iota.
    + eapply wp_conseq; [apply IH |].
      intros r w2 (news & S2 & F2 & Hr).
      exists ((ClosePositionTx (positionId p), Ok sig) :: news).
      split; [rewrite S2, H1, <- app_assoc; reflexivity |].
      split.
      * constructor; [exists p; simpl; auto |].
        eapply Forall_impl; [| exact F2].
        intros s (q & Hq & Hs). exists q. simpl. auto.
      * destruct r as [sigs | e]; [| exact I].
        destruct Hr as (got & -> & -> & Hlen).
        exists (sig :: got). rewrite <- app_assoc. simpl.
        repeat split; auto.
    + destruct H1 as [H1 | H1].
      * exists []. rewrite app_nil_r. repeat split; auto.
      * exists [(ClosePositionTx (positionId p), Thrown e)].
        split; [exact H1 |]. split; [| exact I].
        constructor; [| constructor]. exists p. simpl. auto.
Qed.

(** X19. Whatever happens, the transactions [withdrawOutOfRangePositions]
    hands to the chain are close-position transactions for positions it read
    with the in-range flag false: a position in range is never withdrawn,
    and nothing is ever opened. *)
Theorem withdraw_only_out_of_range w ps w1 :
  getPositions gw cfg w = (Ok ps, w1) ->
  exists news,
    submitted (trace (snd (withdrawOutOfRangePositions gw cfg w)))
    = (submitted (trace w) ++ news)%list /\
    Forall (fun s => exists p,
                In p ps /\ inRange p = false /\
                fst s = ClosePositionTx (positionId p)) news.
Proof.
  intro E.
  pose proof (effects_run no_submit _ _ _ _
                (effects_getPositions gw cfg no_submit no_submit_log) E) as F1.
  apply extends_submitted in F1.
  unfold withdrawOutOfRangePositions.
  rewrite (tryCatch_bind_ok _ _ _ _ _ _ E). cbv zeta.
  match goal with
  | |- context [snd (?m w1)] =>
      assert (Hwp : wp m
        (fun _ w' =>
           exists news,
             submitted (trace w') = (submitted (trace w1) ++ news)%list /\
             Forall (fun s => exists p,
                         In p ps /\ inRange p = false /\
                         fst s = ClosePositionTx (positionId p)) news) w1)
  end.
  { wp_steps.
    destruct (List.length _ =? 0)%nat.
    - wp_steps. exists []. simpl.
      rewrite submitted_app, !app_nil_r. auto.
    - eapply wp_conseq; [apply withdrawEach_outcome |].
      intros r w2 (news & S2 & F2 & _).
      assert (F3 : Forall (fun s => exists p,
                             In p ps /\ inRange p = false /\
                             fst s = ClosePositionTx (positionId p)) news).
      { eapply Forall_impl; [| exact F2].
        intros s (p & Hp & Hs). apply filter_In in Hp.
        destruct Hp as [Hp Hr]. apply negb_true_iff in Hr. eauto. }
      destruct r as [sigs | e]; cbv beta iota; [eauto |].
      wp_steps. wp_silent. wp_steps. exists news. split; [| exact F3].
      same_submitted H. exact S2. }
  unfold wp in Hwp. destruct Hwp as (news & S & F).
  exists news. rewrite S, F1. auto.
Qed.

(** X20. When every withdrawal is confirmed, [withdrawOutOfRangePositions]
    returns one signature per out-of-range position, in the order of the
    positions, and these are exactly the confirmed close transactions it
    added; it stops in the world of the last withdrawal. *)
Theorem withdraw_all_confirmed w ps w1 sigs w2 :
  getPositions gw cfg w = (Ok ps, w1) ->
  filter (fun position => negb (inRange position)) ps <> [] ->
  withdrawEach gw cfg (filter (fun position => negb (inRange position)) ps)
               [] w1 = (Ok sigs, w2) ->
  withdrawOutOfRangePositions gw cfg w = (Ok sigs, w2) /\
  List.length sigs
  = List.length (filter (fun position => negb (inRange position)) ps) /\
  submitted (trace w2)
  = (submitted (trace w)
     ++ map (fun ps => (ClosePositionTx (positionId (fst ps)), Ok (snd ps)))
            (combine (filter (fun position => negb (inRange position)) ps)
                     sigs))%list.
Proof.
  intros E Hne Ew.
  pose proof (effects_run no_submit _ _ _ _
                (effects_getPositions gw cfg no_submit no_submit_log) E) as F1.
  apply extends_submitted in F1.
  pose proof (wp_inv _ _ _ _ _ (withdrawEach_outcome _ _ w1) Ew)
    as (news & S & _ & got & Hs & Hn & Hl).
  simpl in Hs. subst sigs news.
  split; [| split; [exact Hl | rewrite S, F1; reflexivity]].
  unfold withdrawOutOfRangePositions.
  apply run_tryCatch_ok. erewrite run_bind_ok by exact E. cbv zeta.
  destruct (filter (fun position => negb (inRange position)) ps)
    as [| q qs]; [contradiction Hne; reflexivity |].
  exact Ew.
Qed.

(** X21. With no position out of range, [withdrawOutOfRangePositions]
    returns the empty list after one log line and submits nothing. *)
Theorem withdraw_nothing_to_do w ps w1 :
  getPositions gw cfg w = (Ok ps, w1) ->
  forallb inRange ps = true ->
  withdrawOutOfRangePositions gw cfg w
  = (Ok [],
     with_event (Log LInfo "No out-of-range positions to withdraw") w1).
Proof.
  intros E Hall. unfold withdrawOutOfRangePositions.
  apply run_tryCatch_ok. erewrite run_bind_ok by exact E. cbv zeta.
  rewrite (filter_out_of_range_nil _ Hall). reflexivity.
Qed.
End Withdrawals.

(** ** Wallet balances *)
Section Balances.
Context {Chain : Type} (gw : Gateway Chain) (cfg : Config).
Implicit Types w : World Chain.

Lemma map_get_set_same {V} k (v : V) m : map_get k (map_set k v m) = Some v.
Proof.
  induction m as [| [k' v'] m IH]; simpl.
  - rewrite String.eqb_refl. reflexivity.
  - destruct (String.eqb k k') eqn:E; simpl.
    + rewrite String.eqb_refl. reflexivity.
    + rewrite E. exact IH.
Qed.

Lemma map_get_set_other {V} k k' (v : V) m :
  String.eqb k' k = false -> map_get k' (map_set k v m) = map_get k' m.
Proof.
  intro Hne. induction m as [| [k0 v0] m IH]; simpl.
  - rewrite Hne. reflexivity.
  - destruct (String.eqb k k0) eqn:E; simpl.
    + apply String.eqb_eq in E. subst k0. rewrite Hne. reflexivity.
    + destruct (String.eqb k' k0); [reflexivity | exact IH].
Qed.

Lemma find_snoc {A} (f : A -> bool) l a :
  find f (l ++ [a])
  = match find f l with
    | Some x => Some x
    | None => if f a then Some a else None
    end.
Proof.
  induction l as [| x l IH]; simpl; [reflexivity |].
  destruct (f x); [reflexivity | exact IH].
Qed.

Lemma balances_of_accounts accounts m mint :
  map_get mint
    (fold_left (fun balances account =>
                  map_set (tb_mint account) account balances) accounts m)
  = match find (fun a => String.eqb mint (tb_mint a)) (rev accounts) with
    | Some a => Some a
    | None => map_get mint m
    end.
Proof.
  revert m. induction accounts as [| a accounts IH]; intro m; simpl.
  - reflexivity.
  - rewrite IH, find_snoc.
    destruct (find _ (rev accounts)); [reflexivity |].
    destruct (String.eqb mint (tb_mint a)) eqn:E.
    + apply String.eqb_eq in E. subst mint. apply map_get_set_same.
    + apply map_get_set_other. exact E.
Qed.

(** X22. The balance [getTokenBalances] reports for a mint is that of the
    last token account of that mint in the RPC's answer: accounts of one
    mint are not added up, the later one replaces the earlier. A mint with
    no account has no entry. *)
Theorem getTokenBalances_last_account w balances w' :
  getTokenBalances gw w = (Ok balances, w') ->
  exists accounts c,
    rpc_getParsedTokenAccountsByOwner gw (chain w) = (Ok accounts, c) /\
    forall mint,
      map_get mint balances
      = find (fun a => String.eqb mint (tb_mint a)) (rev accounts).
Proof.
  unfold getTokenBalances, tryCatch, bind, call, ret, throw, log, emit,
    modify.
  destruct (rpc_getParsedTokenAccountsByOwner gw (chain w))
    as [[accounts | e] c]; simpl; intro E; [| discriminate].
  injection E as <- _. exists accounts, c. split; [reflexivity |].
  intro mint. rewrite balances_of_accounts.
  destruct (find _ (rev accounts)); reflexivity.
Qed.

Definition is_low_balance (e : Event) : bool :=
  match e with
  | Notify t _ _ _ => String.eqb t "Low SOL Balance"
  | _ => false
  end.

Definition no_low_balance (e : Event) : Prop :=
  match e with
  | Notify t _ _ _ => False
  | _ => True
  end.

Lemma count_no_low_balance d :
  Forall no_low_balance d -> count is_low_balance d = 0.
Proof.
  induction 1 as [| e d He _ IH]; [reflexivity |].
  destruct e; simpl in He; try contradiction; exact IH.
Qed.

Lemma formatBalances_nil acc w :
  formatBalances (Chain := Chain) [] acc w = (Ok acc, w).
Proof. reflexivity. Qed.

Lemma formatBalances_cons entry rest acc w :
  exists e,
    formatBalances (Chain := Chain) (entry :: rest) acc w = (Thrown e, w).
Proof. destruct entry as [mint bal]. eexists. reflexivity. Qed.

Lemma checkWalletBalances_outcome w :
  wp (checkWalletBalances gw cfg)
     (fun r w' =>
        match r with
        | Ok (solBalance, tokens) =>
            (exists w1 w2,
                getSolBalance gw w = (Ok solBalance, w1) /\
                getTokenBalances gw w1 = (Ok [], w2)) /\
            tokens = [] /\
            count is_low_balance (trace w')
            = count is_low_balance (trace w)
              + (if (solBalance <? minSolBalance cfg)%float then 1 else 0)
        | Thrown _ =>
            count is_low_balance (trace w') = count is_low_balance (trace w)
        end) w.
Proof.
  assert (Hquiet : forall w0 w1,
             extends no_low_balance w0 w1 ->
             count is_low_balance (trace w1)
             = count is_low_balance (trace w0)).
  { intros w0 w1 (_ & _ & d & -> & F).
    rewrite count_app, (count_no_low_balance d F). lia. }
  assert (Hlog : forall l s, no_low_balance (Log l s)) by (intros; exact I).
  unfold checkWalletBalances. wp_steps.
  apply wp_eqn. intros r1 w1 E1.
  pose proof (effects_run _ _ _ _ _
                (effects_getSolBalance gw no_low_balance Hlog) E1) as F1.
  apply Hquiet in F1.
  destruct r1 as [sol | e]; cbv beta iota;
    [| wp_steps; simpl; rewrite count_app, F1; unfold count; simpl; lia].
  wp_steps.
  apply wp_eqn. intros r2 w2 E2.
  pose proof (effects_run _ _ _ _ _
                (effects_getTokenBalances gw no_low_balance Hlog) E2) as F2.
  apply Hquiet in F2. rewrite F1 in F2.
  destruct r2 as [tb | e]; cbv beta iota;
    [| wp_steps; simpl; rewrite count_app, F2; unfold count; simpl; lia].
  wp_steps.
  destruct tb as [| entry tb].
  2: { destruct (formatBalances_cons entry tb [] w2) as [e Ee].
       eapply wp_run; [exact Ee |]. cbv beta iota. wp_steps.
       simpl. rewrite count_app, F2. unfold count. simpl. lia. }
  eapply wp_run; [apply formatBalances_nil |]. cbv beta iota. wp_steps.
  destruct (sol <? minSolBalance cfg)%float eqn:Hlow; wp_steps.
  - eapply wp_conseq; [apply sendNotification_spec |].
    intros r3 w3 (-> & _ & _ & d & T & F). cbv beta iota. wp_steps.
    split; [eauto | split; [reflexivity |]].
    rewrite T. simpl.
    change (Notify ?a ?b ?c0 ?f0 :: d) with ([Notify a b c0 f0] ++ d)%list.
    rewrite !count_app.
    rewrite (count_logs _ d) by (auto; intros; reflexivity).
    rewrite F2, Hlow. unfold count. simpl. lia.
  - split; [eauto | split; [reflexivity |]].
    simpl. rewrite count_app, F2, Hlow. unfold count. simpl. lia.
Qed.

(** X23. [checkWalletBalances] returns only for a wallet without token
    accounts: it names each token by asking [raydiumService] for the pool's
    mints, through methods the service does not define, so the first token
    entry makes it throw. When it returns, the token list is empty and it
    has sent one "Low SOL Balance" notification if the SOL balance it
    returns is below [minSolBalance], and none otherwise. When it throws,
    it has sent none. *)
Theorem checkWalletBalances_low_balance_alert w r w' :
  checkWalletBalances gw cfg w = (r, w') ->
  match r with
  | Ok (solBalance, tokens) =>
      (exists w1 w2,
          getSolBalance gw w = (Ok solBalance, w1) /\
          getTokenBalances gw w1 = (Ok [], w2)) /\
      tokens = [] /\
      count is_low_balance (trace w')
      = count is_low_balance (trace w)
        + (if (solBalance <? minSolBalance cfg)%float then 1 else 0)
  | Thrown _ =>
      count is_low_balance (trace w') = count is_low_balance (trace w)
  end.
Proof.
  intro E. exact (wp_inv _ _ _ _ _ (checkWalletBalances_outcome w) E).
Qed.
End Balances.

(** ** The hosts *)

(** X24. [Config.validate] returns true exactly when the private key and
    the pool id are both non-empty; otherwise it throws, and the message
    lists the missing keys, SOLANA_PRIVATE_KEY before POOL_ID, separated by
    a comma and a space. It never returns false. *)
Theorem validate_names_missing_keys (privateKey poolId : string) :
  validate privateKey poolId
  = match truthy privateKey, truthy poolId with
    | true, true => Ok true
    | false, true =>
        Thrown "Missing required configuration: SOLANA_PRIVATE_KEY"
    | true, false => Thrown "Missing required configuration: POOL_ID"
    | false, false =>
        Thrown "Missing required configuration: SOLANA_PRIVATE_KEY, POOL_ID"
    end.
Proof.
  unfold validate. simpl.
  destruct (truthy privateKey), (truthy poolId); reflexivity.
Qed.

Section HostsFacts.
Context {Chain : Type} (gw : Gateway Chain) (cfg : Config).
Implicit Types w : World Chain.

Lemma stop_never_throws w : exists w', stop gw cfg w = (Ok tt, w').
Proof.
  destruct (isRunning w) eqn:Hr.
  - destruct (cronJob w) as [j |] eqn:Hj.
    + assert (Hc : cronJob w <> None) by congruence.
      destruct (stop_outcome gw cfg w Hr Hc) as (w' & E & _). eauto.
    + unfold stop, bind, gets, log, emit, modify. rewrite Hr, Hj. simpl.
      eauto.
  - unfold stop, bind, gets, log, emit, modify. rewrite Hr. simpl. eauto.
Qed.

(** X25. The start handler answers 405 to any method but POST and touches
    nothing. To a POST it always answers 200, never 500: "Bot is already
    running" when the flag is set, in which case nothing is done, and "Bot
    started successfully" otherwise, whether or not [start] brought the bot
    up. *)
Theorem startBotHandler_replies method w :
  exists reply w',
    startBotHandler gw cfg method w = (Ok reply, w') /\
    (String.eqb method "POST" = false ->
     reply = ReplyError 405 "Method not allowed" /\ w' = w) /\
    (String.eqb method "POST" = true ->
     reply = ReplyMessage 200 (if isRunning w then "Bot is already running"
                               else "Bot started successfully") /\
     (isRunning w = true -> w' = w)).
Proof.
  unfold startBotHandler.
  destruct (String.eqb method "POST") eqn:Hm; simpl.
  - unfold tryCatch, bind, isActive, gets.
    destruct (isRunning w) eqn:Hr.
    + exists (ReplyMessage 200 "Bot is already running"), w.
      split; [reflexivity |]. split; [discriminate | auto].
    + destruct (start_never_throws gw cfg w) as [w1 E1]. rewrite E1.
      simpl. eexists; eexists. split; [reflexivity |].
      split; [discriminate |]. split; [reflexivity | discriminate].
  - exists (ReplyError 405 "Method not allowed"), w.
    split; [reflexivity |]. split; [auto | discriminate].
Qed.

(** X26. The stop handler answers 405 to any method but POST and touches
    nothing. To a POST it always answers 200: "Bot is not running" when
    the flag is clear, in which case nothing is done, and "Bot stopped
    successfully" otherwise; when the bot's flag and timer agree, the bot
    is stopped afterwards. *)
Theorem stopBotHandler_replies method w :
  exists reply w',
    stopBotHandler gw cfg method w = (Ok reply, w') /\
    (String.eqb method "POST" = false ->
     reply = ReplyError 405 "Method not allowed" /\ w' = w) /\
    (String.eqb method "POST" = true ->
     reply = ReplyMessage 200 (if isRunning w then "Bot stopped successfully"
                               else "Bot is not running") /\
     (isRunning w = false -> w' = w) /\
     (bot_consistent w -> isRunning w' = false)).
Proof.
  unfold stopBotHandler.
  destruct (String.eqb method "POST") eqn:Hm; simpl.
  - unfold tryCatch, bind, isActive, gets.
    destruct (isRunning w) eqn:Hr; simpl.
    + destruct (stop_never_throws w) as [w1 E1]. rewrite E1. simpl.
      eexists; eexists. split; [reflexivity |].
      split; [discriminate |]. split; [reflexivity |].
      split; [discriminate |]. intro Hc. simpl.
      assert (Hj : cronJob w <> None) by (apply Hc; exact Hr).
      destruct (stop_outcome gw cfg w Hr Hj) as (w2 & E2 & R2 & _).
      rewrite E1 in E2. injection E2 as <-. exact R2.
    + exists (ReplyMessage 200 "Bot is not running"), w.
      split; [reflexivity |]. split; [discriminate |].
      split; [reflexivity |]. split; [auto |]. intros _. exact Hr.
  - exists (ReplyError 405 "Method not allowed"), w.
    split; [reflexivity |]. split; [auto | discriminate].
Qed.

(** X27. The status handler never throws. On a stopped bot a GET is
    answered with the three snapshots null and nothing is touched. On a
    running bot it runs the three monitors: either it answers 200 with
    their results, and the stored last price has become the price it
    reports (a status query moves the drift baseline), or a monitor failed
    and it answers 500. *)
Theorem statusHandler_replies w :
  exists reply w',
    statusHandler gw cfg "GET" w = (Ok reply, w') /\
    (isRunning w = false ->
     reply = ReplyStatus 200 false None None None /\ w' = w) /\
    (isRunning w = true ->
     (exists priceInfo positionInfo balanceInfo,
         reply = ReplyStatus 200 true (Some priceInfo) (Some positionInfo)
                             (Some balanceInfo) /\
         lastCheckedPrice w' = Some (pr_currentPrice priceInfo))
     \/ reply = ReplyError 500 "Failed to get bot status").
Proof.
  assert (Hwp :
    wp (statusHandler gw cfg "GET")
       (fun r w' =>
          exists reply,
            r = Ok reply /\
            (isRunning w = false ->
             reply = ReplyStatus 200 false None None None /\ w' = w) /\
            (isRunning w = true ->
             (exists priceInfo positionInfo balanceInfo,
                 reply = ReplyStatus 200 true (Some priceInfo)
                                     (Some positionInfo) (Some balanceInfo) /\
                 lastCheckedPrice w' = Some (pr_currentPrice priceInfo))
             \/ reply = ReplyError 500 "Failed to get bot status")) w).
  { unfold statusHandler. simpl. unfold isActive. wp_steps.
    destruct (isRunning w) eqn:Hr.
    - assert (Hfail : forall w1,
                 wp (log LError "Failed to get bot status via API" ;;
                     ret (ReplyError 500 "Failed to get bot status"))
                    (fun r w' =>
                       exists reply,
                         r = Ok reply /\
                         (true = false ->
                          reply = ReplyStatus 200 false None None None /\
                          w' = w) /\
                         (true = true ->
                          (exists priceInfo positionInfo balanceInfo,
                              reply = ReplyStatus 200 true (Some priceInfo)
                                        (Some positionInfo)
                                        (Some balanceInfo) /\
                              lastCheckedPrice w'
                              = Some (pr_currentPrice priceInfo))
                          \/ reply = ReplyError 500 "Failed to get bot status"))
                    w1).
      { intro w1. wp_steps. eexists. split; [reflexivity |].
        split; [discriminate | auto]. }
      wp_steps. eapply wp_conseq; [apply checkPrice_outcome |].
      intros [pi | e] w1 H1; cbv beta iota; [| apply Hfail].
      destruct H1 as (_ & L1 & _).
      wp_steps. apply wp_eqn. intros r2 w2 E2.
      pose proof (keeps_price_run _ _ _ _
                    (keeps_price_checkPositions gw cfg) E2) as L2.
      destruct r2 as [st | e]; cbv beta iota; [| apply Hfail].
      wp_steps. apply wp_eqn. intros r3 w3 E3.
      pose proof (keeps_price_run _ _ _ _
                    (keeps_price_checkWalletBalances gw cfg) E3) as L3.
      destruct r3 as [bal | e]; cbv beta iota; [| apply Hfail].
      wp_steps. eexists. split; [reflexivity |].
      split; [discriminate |]. intros _. left.
      exists pi, st, bal. split; [reflexivity |]. congruence.
    - wp_steps. eexists. split; [reflexivity |].
      split; [auto | discriminate]. }
  unfold wp in Hwp. destruct (statusHandler gw cfg "GET" w) as [r w'].
  simpl in Hwp. destruct Hwp as (reply & -> & H). eauto.
Qed.
End HostsFacts.

(** ** Ticks after a stop *)
Section StoppedTimer.
Context {Chain : Type} (gw : Gateway Chain) (cfg : Config).

Lemma ticks_unarmed (l : Loop Chain) n :
  cronJob (bot l) = None -> loopRun gw cfg l (repeat Tick n) = l.
Proof.
  intro H. induction n as [| n IH]; [reflexivity |].
  simpl. unfold loopRun in *. simpl.
  replace (tick gw cfg l) with l; [exact IH |].
  unfold tick. rewrite H. reflexivity.
Qed.

(** X28. After [stop] on a running bot no tick starts an iteration any
    more: however many ticks arrive, the loop stays as [stop] left it, with
    the iterations that were already in flight still waiting to finish. *)
Theorem stopped_timer_starts_nothing (w : World Chain)
        (inflight : list (M Chain unit)) n :
  isRunning w = true ->
  cronJob w <> None ->
  loopRun gw cfg (mkLoop (snd (stop gw cfg w)) inflight) (repeat Tick n)
  = mkLoop (snd (stop gw cfg w)) inflight.
Proof.
  intros Hr Hc. apply ticks_unarmed. simpl.
  destruct (stop_outcome gw cfg w Hr Hc) as (w' & E & _ & C & _).
  rewrite E. exact C.
Qed.
End StoppedTimer.

(** * Further runs on scripted chains *)
Section MoreScriptedRuns.
Import Scripted.

(** The SDK knows no such pool. *)
Definition pool_missing : Script := {|
  pools := [Ok None];
  owned := [Ok []];
  accounts := [Ok []];
  sends := []
|}.

(** No position, and no token account for the pool's second mint. *)
Definition token_b_absent : Script := {|
  pools := [Ok (Some (pool 100))];
  owned := [Ok []];
  accounts := [Ok [balance "MINT_A" 5000]];
  sends := [Ok "SIG_OPEN"]
|}.

(** Two positions below the price, both withdrawals confirmed. *)
Definition both_withdrawals_confirmed : Script := {|
  pools := [Ok (Some (pool 100))];
  owned := [Ok [position "P1" 10 20; position "P2" 30 40]];
  accounts := [Ok [balance "MINT_A" 5000; balance "MINT_B" 7000]];
  sends := [Ok "SIG1"; Ok "SIG2"]
|}.

(** Two token accounts of the first mint, 5000 then 1200 raw units. *)
Definition two_accounts_one_mint : Script := {|
  pools := [Ok (Some (pool 100))];
  owned := [Ok []];
  accounts := [Ok [balance "MINT_A" 5000; balance "MINT_B" 7000;
                   balance "MINT_A" 1200]];
  sends := []
|}.

(** A wallet of 2 SOL that holds no token account. *)
Definition no_token_account : Script := {|
  pools := [Ok (Some (pool 100))];
  owned := [Ok []];
  accounts := [Ok []];
  sends := []
|}.

(** The scripted configuration with the SOL floor raised to 5. *)
Definition cautious : Config := {|
  poolId := "POOL";
  priceRangePercent := 5;
  rebalanceThresholdPercent := 1;
  minSolBalance := 5;
  checkIntervalMinutes := 5;
  webhookReady := true
|}.

Definition sol : Token :=
  {| tk_mint := "MINT_A"; tk_symbol := "SOL"; tk_decimals := 9 |}.

Definition usdc : Token :=
  {| tk_mint := "MINT_B"; tk_symbol := "USDC"; tk_decimals := 6 |}.

Definition iterating (s : Script) : World Script :=
  with_event (Log LInfo "Running bot iteration") (fresh s).

Lemma fetchPoolInfo_cache_witness :
  pool_loaded (pool 100)
    (snd (fetchPoolInfo gateway config (fresh empty_wallet_funded))).
Proof.
  assert (E : fetchPoolInfo gateway config (fresh empty_wallet_funded)
              = (Ok (pool 100),
                 snd (fetchPoolInfo gateway config
                        (fresh empty_wallet_funded))))
    by (vm_compute; reflexivity).
  destruct (fetchPoolInfo_cache gateway config _ _ _ E) as [H _]. exact H.
Defined.

Lemma fetchPoolInfo_not_found_witness :
  fst (fetchPoolInfo gateway config (fresh pool_missing))
  = Thrown "Pool not found: POOL".
Proof.
  rewrite (fetchPoolInfo_not_found gateway config (fresh pool_missing)
             pool_missing); reflexivity.
Defined.

Lemma getPositions_listing_witness :
  positions_listed gateway config
    [formatPosition gateway sol usdc 100 (position "P1" 90 110)]
    (snd (getPositions gateway config (fresh one_position_in_range))).
Proof.
  apply (getPositions_listing gateway config (fresh one_position_in_range)).
  vm_compute. reflexivity.
Defined.

Lemma checkPositions_counts_witness :
  exists ps w1,
    getPositions gateway config (fresh second_withdrawal_fails) = (Ok ps, w1)
    /\ List.length ps = 2
    /\ List.length (filter (fun p => negb (inRange p)) ps) = 2.
Proof.
  destruct (checkPositions_counts gateway config
              (fresh second_withdrawal_fails)
              {| positionsCount := 2; outOfRangeCount := 2 |}
              (snd (checkPositions gateway config
                      (fresh second_withdrawal_fails))))
    as (ps & w1 & E & H1 & H2 & _).
  - vm_compute. reflexivity.
  - exists ps, w1. simpl in H1, H2. auto.
Defined.

Lemma checkPrice_reads_cache_witness :
  exists r w',
    checkPrice gateway config (watching None 100 pool_unreachable)
    = (Ok r, w') /\
    getCurrentPrice gateway (watching None 100 pool_unreachable)
    = (Ok (pr_currentPrice r), watching None 100 pool_unreachable) /\
    chain w' = pool_unreachable.
Proof.
  destruct (checkPrice_reads_cache gateway config
              (watching None 100 pool_unreachable))
    as (r & w' & E & P & C & _).
  - discriminate.
  - exists r, w'. auto.
Defined.

Lemma stop_running_witness :
  exists w',
    stop gateway config (started empty_wallet_funded) = (Ok tt, w') /\
    isRunning w' = false /\ cronJob w' = None.
Proof.
  destruct (stop_running gateway config (started empty_wallet_funded))
    as (w' & E & R & C & _).
  - reflexivity.
  - discriminate.
  - exists w'. auto.
Defined.

Lemma bot_consistent_kept_witness :
  bot_consistent (snd (start gateway config (fresh empty_wallet_funded))).
Proof.
  destruct (bot_consistent_kept gateway config (fresh empty_wallet_funded))
    as [H _].
  - split; [discriminate | intro H; contradiction H; reflexivity].
  - exact H.
Defined.

Lemma runIteration_price_failure_witness :
  exists w',
    runIteration gateway config (fresh pool_unreachable) = (Ok tt, w') /\
    submitted (trace w') = [] /\ lastCheckedPrice w' = None.
Proof.
  destruct (runIteration_price_failure gateway config
              (fresh pool_unreachable) "fetch failed"
              (snd (checkPrice gateway config (iterating pool_unreachable))))
    as (w' & E & _ & S & L).
  - vm_compute. reflexivity.
  - exists w'. auto.
Defined.

Lemma runIteration_baseline_witness :
  lastCheckedPrice
    (snd (runIteration gateway config (fresh empty_wallet_funded)))
  = Some 100%float.
Proof.
  apply (runIteration_baseline gateway config (fresh empty_wallet_funded)
           {| pr_currentPrice := 100; significantChange := false;
              percentChange := None |}
           (snd (checkPrice gateway config (iterating empty_wallet_funded)))).
  vm_compute. reflexivity.
Defined.

Lemma runIteration_no_rebalance_witness :
  submitted (trace (snd (runIteration gateway config
                           (fresh one_position_in_range))))
  = [].
Proof.
  apply (runIteration_no_rebalance gateway config
           (fresh one_position_in_range)
           {| pr_currentPrice := 100; significantChange := false;
              percentChange := None |}
           (snd (checkPrice gateway config (iterating one_position_in_range)))
           {| positionsCount := 1; outOfRangeCount := 0 |}
           (snd (checkPositions gateway config
                   (snd (checkPrice gateway config
                           (iterating one_position_in_range))))));
    try (vm_compute; reflexivity).
  discriminate.
Defined.

Lemma rebalanceIfNeeded_all_in_range_witness :
  fst (rebalanceIfNeeded gateway config (fresh one_position_in_range))
  = Ok false.
Proof.
  rewrite (rebalanceIfNeeded_all_in_range gateway config
             (fresh one_position_in_range)
             [formatPosition gateway sol usdc 100 (position "P1" 90 110)]
             (snd (getPositions gateway config
                     (fresh one_position_in_range))));
    try (vm_compute; reflexivity).
  discriminate.
Defined.

Lemma rebalanceIfNeeded_nothing_withdrawn_witness :
  fst (rebalanceIfNeeded gateway config (fresh second_withdrawal_fails))
  = Ok false.
Proof.
  rewrite (rebalanceIfNeeded_nothing_withdrawn gateway config
             (fresh second_withdrawal_fails)
             [formatPosition gateway sol usdc 100 (position "P1" 10 20);
              formatPosition gateway sol usdc 100 (position "P2" 30 40)]
             (snd (getPositions gateway config
                     (fresh second_withdrawal_fails)))
             (snd (withdrawOutOfRangePositions gateway config
                     (snd (getPositions gateway config
                             (fresh second_withdrawal_fails))))));
    try (vm_compute; reflexivity).
  vm_compute. discriminate.
Defined.

Lemma createOptimalPosition_missing_balance_witness :
  fst (createOptimalPosition gateway config (fresh token_b_absent)) = Ok None.
Proof.
  rewrite (createOptimalPosition_missing_balance gateway config
             (fresh token_b_absent)
             (snd (ensureInitialized gateway config (fresh token_b_absent)))
             [("MINT_A", balance "MINT_A" 5000)]
             (snd (getTokenBalances gateway
                     (snd (ensureInitialized gateway config
                             (fresh token_b_absent)))))
             (snd (getPositions gateway config
                     (snd (getTokenBalances gateway
                             (snd (ensureInitialized gateway config
                                     (fresh token_b_absent)))))))
             (pool 100)
             (snd (fetchPoolInfo gateway config
                     (snd (getPositions gateway config
                             (snd (getTokenBalances gateway
                                     (snd (ensureInitialized gateway config
                                             (fresh token_b_absent))))))))));
    try (vm_compute; reflexivity).
  right. reflexivity.
Defined.

Lemma createOptimalPosition_amount_bounds_witness :
  exists ba bb lower upper amountA amountB res,
    map_get "MINT_A"
      [("MINT_A", balance "MINT_A" 5000); ("MINT_B", balance "MINT_B" 7000)]
    = Some ba /\
    map_get "MINT_B"
      [("MINT_A", balance "MINT_A" 5000); ("MINT_B", balance "MINT_B" 7000)]
    = Some bb /\
    submitted (trace (snd (createOptimalPosition gateway config
                             (fresh empty_wallet_funded))))
    = [(OpenPositionTx lower upper amountA amountB, res)] /\
    (amount ba = 5000)%Z /\ (amount bb = 7000)%Z /\
    (950 <= amountA <= 5000)%Z /\ (950 <= amountB <= 7000)%Z.
Proof.
  destruct (createOptimalPosition_amount_bounds gateway config
              (fresh empty_wallet_funded)
              (fst (createOptimalPosition gateway config
                      (fresh empty_wallet_funded)))
              (snd (createOptimalPosition gateway config
                      (fresh empty_wallet_funded))))
    as (w1 & bs & w2 & w3 & pd & w4 & ba & bb & lo & up & a & b & res
        & F1 & F2 & F3 & F4 & GA & GB & S & _ & _ & HA & HB).
  - apply surjective_pairing.
  - vm_compute. discriminate.
  - vm_compute in F1. injection F1 as <-.
    vm_compute in F2. injection F2 as <- <-.
    vm_compute in F3. injection F3 as <-.
    vm_compute in F4. injection F4 as <- _.
    assert (Ea : amount ba = 5000%Z)
      by (vm_compute in GA; injection GA as <-; reflexivity).
    assert (Eb : amount bb = 7000%Z)
      by (vm_compute in GB; injection GB as <-; reflexivity).
    rewrite Ea in HA. rewrite Eb in HB.
    exists ba, bb, lo, up, a, b, res.
    split; [exact GA |]. split; [exact GB |]. split; [exact S |].
    split; [exact Ea |]. split; [exact Eb |]. split; [exact HA | exact HB].
Defined.

Lemma signAndSendTransaction_submits_once_witness :
  submitted
    (trace (snd (signAndSendTransaction gateway (ClosePositionTx "P1")
                   (fresh empty_wallet_funded))))
  = [(ClosePositionTx "P1", Ok "SIG_OPEN")].
Proof.
  destruct (signAndSendTransaction_submits_once gateway
              (ClosePositionTx "P1") (fresh empty_wallet_funded)
              (Ok "SIG_OPEN")
              (snd (signAndSendTransaction gateway (ClosePositionTx "P1")
                      (fresh empty_wallet_funded))))
    as [[_ [e He]] | H].
  - vm_compute. reflexivity.
  - discriminate He.
  - exact H.
Defined.

Lemma withdraw_only_out_of_range_witness :
  exists news,
    submitted (trace (snd (withdrawOutOfRangePositions gateway config
                             (fresh second_withdrawal_fails))))
    = news /\
    Forall (fun s => exists p,
                In p [formatPosition gateway sol usdc 100
                        (position "P1" 10 20);
                      formatPosition gateway sol usdc 100
                        (position "P2" 30 40)] /\
                inRange p = false /\
                fst s = ClosePositionTx (positionId p)) news.
Proof.
  destruct (withdraw_only_out_of_range gateway config
              (fresh second_withdrawal_fails)
              [formatPosition gateway sol usdc 100 (position "P1" 10 20);
               formatPosition gateway sol usdc 100 (position "P2" 30 40)]
              (snd (getPositions gateway config
                      (fresh second_withdrawal_fails))))
    as (news & S & F).
  - vm_compute. reflexivity.
  - exists news. split; [exact S | exact F].
Defined.

Lemma withdraw_all_confirmed_witness :
  withdrawOutOfRangePositions gateway config
    (fresh both_withdrawals_confirmed)
  = (Ok ["SIG1"; "SIG2"],
     snd (withdrawOutOfRangePositions gateway config
            (fresh both_withdrawals_confirmed))).
Proof.
  destruct (withdraw_all_confirmed gateway config
              (fresh both_withdrawals_confirmed)
              [formatPosition gateway sol usdc 100 (position "P1" 10 20);
               formatPosition gateway sol usdc 100 (position "P2" 30 40)]
              (snd (getPositions gateway config
                      (fresh both_withdrawals_confirmed)))
              ["SIG1"; "SIG2"]
              (snd (withdrawOutOfRangePositions gateway config
                      (fresh both_withdrawals_confirmed))))
    as [E _].
  - vm_compute. reflexivity.
  - vm_compute. discriminate.
  - vm_compute. reflexivity.
  - exact E.
Defined.

Lemma withdraw_nothing_to_do_witness :
  fst (withdrawOutOfRangePositions gateway config
         (fresh one_position_in_range))
  = Ok [].
Proof.
  rewrite (withdraw_nothing_to_do gateway config
             (fresh one_position_in_range)
             [formatPosition gateway sol usdc 100 (position "P1" 90 110)]
             (snd (getPositions gateway config
                     (fresh one_position_in_range))));
    vm_compute; reflexivity.
Defined.

Lemma getTokenBalances_last_account_witness :
  map_get "MINT_A"
    [("MINT_A", balance "MINT_A" 1200); ("MINT_B", balance "MINT_B" 7000)]
  = Some (balance "MINT_A" 1200).
Proof.
  destruct (getTokenBalances_last_account gateway
              (fresh two_accounts_one_mint)
              [("MINT_A", balance "MINT_A" 1200);
               ("MINT_B", balance "MINT_B" 7000)]
              (snd (getTokenBalances gateway (fresh two_accounts_one_mint))))
    as (accs & c & E & H).
  - vm_compute. reflexivity.
  - vm_compute in E. injection E as <- _. rewrite H. reflexivity.
Defined.

Lemma checkWalletBalances_low_balance_alert_witness :
  fst (checkWalletBalances gateway cautious (fresh no_token_account))
  = Ok (2%float, []) /\
  count is_low_balance
    (trace (snd (checkWalletBalances gateway cautious
                   (fresh no_token_account))))
  = 1.
Proof.
  pose proof (checkWalletBalances_low_balance_alert gateway cautious
                (fresh no_token_account) (Ok (2%float, []))
                (snd (checkWalletBalances gateway cautious
                        (fresh no_token_account)))) as H.
  cbv beta iota in H. destruct H as (_ & _ & C).
  - vm_compute. reflexivity.
  - split; [vm_compute; reflexivity | exact C].
Defined.

Lemma stopped_timer_starts_nothing_witness :
  inFlight (loopRun gateway config
              (mkLoop (snd (stop gateway config (started empty_wallet_funded)))
                      [])
              (repeat Tick 2))
  = 0.
Proof.
  rewrite (stopped_timer_starts_nothing gateway config
             (started empty_wallet_funded) [] 2).
  - reflexivity.
  - reflexivity.
  - discriminate.
Defined.
End MoreScriptedRuns.
